(** * Thesis-RAG: retrieval, citation and session orchestration

    A shallow embedding of the three scripts of the repository

      - [src/rag_chat_first.py]    (single-turn question answering),
      - [src/rag_chat_session.py]  (conversational chat with memory),
      - [src/run_mpnet_tests.py]   (benchmark sweep over language models),

    followed by the properties of the citation numbering, the vector-store
    life cycle, the session history and the benchmark loop.

    Conventions.  A Python [str] is a [string]; characters outside ASCII are
    held in their UTF-8 encoding.  A [dict] with string keys is a [gmap
    string _].  Calls into the libraries the scripts import (document
    loaders, the text splitter, Chroma, the language model, the clock) are
    the fields of one interface, [Externals], that every script is
    parameterised by; whatever they do to the outer world is recorded in an
    explicit world value that every effectful function threads. *)

From Stdlib Require Import ZArith QArith Qround Ascii.
From stdpp Require Import base option list gmap strings pretty.

#[local] Open Scope stdpp_scope.
#[local] Open Scope nat_scope.

(** ** Python primitives on strings *)

Module Py.

(** The one-character string [chr 10], written ["\n"] in the scripts. *)
Definition nl : string := String "010"%char "".

(** [str(n)] for a non-negative integer. *)
Definition str (n : nat) : string := pretty n.

(** [s.replace(old, new)] for a one-character [old]. *)
Fixpoint replace (old : ascii) (new : string) (s : string) : string :=
  match s with
  | "" => ""
  | String c s' =>
      if decide (c = old) then new +:+ replace old new s'
      else String c (replace old new s')
  end.

(** The ASCII characters [str.isspace] accepts.  White space outside ASCII,
    which [strip] would remove as well, is not recognised. *)
Definition isspace (c : ascii) : bool :=
  match c with
  | "009" | "010" | "011" | "012" | "013"
  | "028" | "029" | "030" | "031" | " " => true
  | _ => false
  end%char.

Fixpoint lstrip (s : string) : string :=
  match s with
  | "" => ""
  | String c s' => if isspace c then lstrip s' else s
  end.

Fixpoint rstrip (s : string) : string :=
  match s with
  | "" => ""
  | String c s' =>
      match rstrip s' with
      | "" => if isspace c then "" else String c ""
      | r => String c r
      end
  end.

(** [s.strip()] *)
Definition strip (s : string) : string := rstrip (lstrip s).

(** [sep.join(parts)] *)
Fixpoint join (sep : string) (parts : list string) : string :=
  match parts with
  | [] => ""
  | [p] => p
  | p :: ps => p +:+ sep +:+ join sep ps
  end.

(** [enumerate(l)] *)
Definition enumerate {A} (l : list A) : list (nat * A) := imap pair l.

(** The concatenation of a list of strings, used to state the closed form
    of an accumulating loop. *)
Definition concat (parts : list string) : string :=
  foldr String.app "" parts.

(** [s.endswith(c)] for a one-character [c]. *)
Fixpoint endswith (s : string) (c : ascii) : bool :=
  match s with
  | "" => false
  | String a "" => bool_decide (a = c)
  | String _ s' => endswith s' c
  end.

(** [round(x, 2)] on the exact value of [x]: the nearest multiple of
    1/100, a tie going to the even one. *)
Definition round2 (x : Q) : Q :=
  let scaled := (x * 100)%Q in
  let low := Qfloor scaled in
  let up :=
    match (scaled - inject_Z low ?= 1 # 2)%Q with
    | Lt => low
    | Gt => (low + 1)%Z
    | Eq => if Z.even low then low else (low + 1)%Z
    end in
  (up # 100)%Q.

(** [s.count(c)] for a one-character [c]. *)
Fixpoint count (c : ascii) (s : string) : nat :=
  match s with
  | "" => 0
  | String a s' => (if decide (a = c) then 1 else 0) + count c s'
  end.

(** [s.endswith(suffix)] *)
Fixpoint str_endswith (s suffix : string) : bool :=
  bool_decide (s = suffix) ||
  match s with
  | "" => false
  | String _ s' => str_endswith s' suffix
  end.

End Py.

(** ** Data model *)

(** A LangChain [Document]: the text of a chunk and its metadata dict. *)
Record Document := mkDocument {
  page_content : string;
  metadata : gmap string string
}.

(** [document.metadata.get("source", "unknown")] *)
Definition metadata_source (document : Document) : string :=
  default "unknown" (metadata document !! "source").

(** ** Context Assembler ([rag_chat_first.py]) *)

Definition context_formatting (documents : list Document) : string :=
  fold_left
    (λ content '(index, document),
       content +:+ "[doc" +:+ Py.str (index + 1) +:+ "]="
               +:+ Py.replace "010" " " (page_content document)
               +:+ Py.nl +:+ Py.nl)
    (Py.enumerate documents) "".

Definition source_formatting (documents : list Document) : string :=
  let sources :=
    fold_left
      (λ sources '(index, document),
         sources +:+ "[doc" +:+ Py.str (index + 1) +:+ "]="
                 +:+ metadata_source document +:+ Py.nl +:+ Py.nl)
      (Py.enumerate documents) "" in
  Py.strip sources.

(** ** Reference box of the chat session ([rag_chat_session.py]) *)

(** The generator expression inside [chat_with_memory]. *)
Definition source_entries (sources : list Document) : list string :=
  (λ '(idx, doc), "[source" +:+ Py.str (idx + 1) +:+ "] " +:+ metadata_source doc)
    <$> Py.enumerate sources.

Definition formatted_sources (sources : list Document) : string :=
  Py.join (Py.nl +:+ Py.nl) (source_entries sources).

(** ** Exceptions, events and the outer world *)

(** The outcome of a call that may raise; the exception is kept as its text. *)
Inductive result (A : Type) : Type :=
  | Ok (a : A)
  | Raise (e : string).
Arguments Ok {A} a.
Arguments Raise {A} e.

Definition is_Ok {A} (r : result A) : Prop :=
  match r with Ok _ => True | Raise _ => False end.

(** A message held by a [ConversationBufferMemory]. *)
Inductive BaseMessage :=
  | HumanMessage (content : string)
  | AIMessage (content : string).

(** An element of the Gradio chat history: [{"role": .., "content": ..}]. *)
Record ChatEntry := mkChatEntry { role : string; content : string }.

(** A row of the benchmark table ([results.append({...})]), one field per
    key of the dict: embedding model, language model, question, answer and
    latency in seconds. *)
Record Row := mkRow {
  Embeddingmodell : string;
  LLM : string;
  Fraga : string;
  Modellens_Svar : string;
  Svarstid : Q
}.

Inductive FsEntry := RegularFile | Directory.

#[global] Instance FsEntry_eq_dec : EqDecision FsEntry.
Proof. solve_decision. Defined.

(** What the scripts do to the outer world, in the order they do it. *)
Inductive Event :=
  | Print (line : string)
  | ChromaOpen (collection_name embedding persist_directory : string)
  | ChromaFromDocuments (documents : list Document)
      (collection_name embedding persist_directory : string)
  | Retrieve (query : string) (documents : list Document)
  | CondenseCall (model prompt : string) (outcome : result string)
  | AnswerCall (model prompt : string) (outcome : result string)
  | ToExcel (file : string) (rows : list Row).

(** The state every effectful function threads: the events so far, the
    number of calls made so far to the language-model backend and to the
    clock, the file system, and the store of memory objects (a
    [ConversationBufferMemory] is a reference into [heap]). *)
Record World := mkWorld {
  trace : list Event;
  ticks : nat;
  fs : gmap string FsEntry;
  heap : list (list BaseMessage)
}.

(** ** The effect monad: state passing with exceptions *)

Definition M (A : Type) : Type := World → result A * World.

Definition ret {A} (a : A) : M A := λ w, (Ok a, w).

Definition bind {A B} (m : M A) (k : A → M B) : M B :=
  λ w, match m w with
       | (Ok a, w') => k a w'
       | (Raise e, w') => (Raise e, w')
       end.

Definition lift {A} (r : result A) : M A := λ w, (r, w).

Definition emit (ev : Event) : M () :=
  λ w, (Ok (), mkWorld (trace w ++ [ev]) (ticks w) (fs w) (heap w)).

Definition tick : M nat :=
  λ w, (Ok (ticks w), mkWorld (trace w) (S (ticks w)) (fs w) (heap w)).

Definition print (line : string) : M () := emit (Print line).

Declare Scope m_scope.
Delimit Scope m_scope with M.
Notation "x <- m ;; k" := (bind m (λ x, k))
  (at level 100, m at next level, right associativity) : m_scope.
Notation "m ;; k" := (bind m (λ _, k))
  (at level 100, right associativity) : m_scope.
#[local] Open Scope m_scope.

(** [for x in xs: acc = body(acc, x)] *)
Fixpoint for_each {A B} (body : B → A → M B) (xs : list A) (acc : B) : M B :=
  match xs with
  | [] => ret acc
  | x :: xs' => (acc' <- body acc x;; for_each body xs' acc')
  end.

(** ** External collaborators *)

(** The library calls of the scripts.  The language model and the clock
    answer as a function of the number of calls made before, so that two
    calls with the same arguments need not agree. *)
Class Externals := {
  (** [glob.glob(pattern)] *)
  glob_glob : string → list string;
  (** [Path(folder).glob(pattern)], each path rendered by [str] *)
  Path_glob : string → string → list string;
  (** [PyPDFLoader(file).load()] *)
  PyPDFLoader_load : string → result (list Document);
  (** [UnstructuredWordDocumentLoader(file).load()] *)
  UnstructuredWordDocumentLoader_load : string → result (list Document);
  (** [DirectoryLoader(folder, loader_cls=TextLoader, glob=..).load()] *)
  DirectoryLoader_load : string → string → result (list Document);
  (** [RecursiveCharacterTextSplitter.from_tiktoken_encoder(chunk_size,
      chunk_overlap).split_documents(docs)] *)
  split_documents : nat → nat → list Document → result (list Document);
  (** the handle of an open Chroma collection *)
  VectorStore : Type;
  (** [Chroma(collection_name, embedding_function, persist_directory)] *)
  Chroma : gmap string FsEntry → string → string → string →
           result VectorStore * gmap string FsEntry;
  (** [Chroma.from_documents(documents, embedding, collection_name,
      persist_directory)] *)
  Chroma_from_documents : gmap string FsEntry → list Document → string → string → string →
           result VectorStore * gmap string FsEntry;
  (** the [k] nearest chunks of a query *)
  similarity_search : VectorStore → nat → string → list Document;
  (** [ChatOllama(model, temperature)] answering a prompt *)
  ChatOllama_invoke : nat → string → Q → string → result string;
  (** [time.time()] *)
  time_time : nat → Q;
  (** how [ConversationalRetrievalChain] renders the stored messages *)
  get_chat_history : list BaseMessage → string;
  (** the library prompt that turns a follow-up into a standalone question *)
  condense_question_prompt : string → string → string;
  (** how the retrieved documents are stuffed into the context slot *)
  format_documents : list Document → string
}.

(** ** Prompt templates *)

(** The template of [generate] in [rag_chat_first.py], with its two slots
    filled. *)
Definition rag_prompt (question context : string) : string :=
  "You are an assistant for question-answering tasks. Use the "
  +:+ "following pieces of retrieved context to answer the question. If "
  +:+ "you don't know the answer, just say that you don't know. Keep the "
  +:+ "answer concise, truthful, and informative. If you decide to use a "
  +:+ "source, you must mention in which document you found specific "
  +:+ "information. Sources are indicated in the context by "
  +:+ "[doc<doc_number>]." +:+ Py.nl
  +:+ "Question: " +:+ question +:+ " " +:+ Py.nl
  +:+ "Context: " +:+ context +:+ " " +:+ Py.nl
  +:+ "Answer:".

(** The template of [build_chain] in [run_mpnet_tests.py], with its three
    slots filled. *)
Definition benchmark_prompt (chat_history question context : string) : string :=
  "
    You are an assistant for technical troubleshooting and product support.
    Use the following context retrieved from documents to answer the user's question.
    - Always tell the truth.
    - If you don't know the answer, say so clearly.
    - Always cite sources using the format [sourceX], where X matches the listed document number.
    - If the question is unclear or lacks detail, ask a follow-up question to improve your understanding.

    Chat History:
    "
  +:+ chat_history
  +:+ "

    Question:
    "
  +:+ question
  +:+ "

    Context:
    "
  +:+ context
  +:+ "

    Answer:
    ".

(** The template of [build_conversational_chain] in [rag_chat_session.py],
    with its three slots filled. *)
Definition conversational_prompt (chat_history question context : string) : string :=
  "
        You are an assistant for technical troubleshooting and product support.
        Use ONLY the provided context retrieved from documents relevant to the user's specific question.
        - Always tell the truth.
        - If you don't know the answer, say so clearly.
        - ALWAYS cite sources using the format [sourceX], where X is the number assigned to the source in this specific context. 
        Do NOT continue numbering from previous questions – always restart from [source1] for each new user question.
        - If the question is unclear or lacks detail, ask a follow-up question to improve your understanding.

        Chat History:
        "
  +:+ chat_history
  +:+ "

        Question:
        "
  +:+ question
  +:+ "

        Context:
        "
  +:+ context
  +:+ "

        Answer:
        ".

(** ** Objects the scripts build *)

(** [ChatOllama(model=.., temperature=..)] *)
Record ChatOllama := mkChatOllama { model : string; temperature : Q }.

Section Scripts.
Context `{Externals}.

(** [vectorstore.as_retriever()]: the store and the number [k] of chunks
    a query returns. *)
Record Retriever := mkRetriever { store : VectorStore; search_k : nat }.

Definition as_retriever (vectorstore : VectorStore) : Retriever :=
  mkRetriever vectorstore 4.

(** A [ConversationalRetrievalChain]: its model, its retriever, the
    reference of its memory object and the prompt of its answering step. *)
Record Chain := mkChain {
  chain_llm : ChatOllama;
  chain_retriever : Retriever;
  chain_memory : nat;
  chain_prompt : string → string → string → string
}.

(** The dict a chain call returns. *)
Record Response := mkResponse {
  answer : string;
  source_documents : option (list Document)
}.

(** *** Library calls, threaded through the world

    The file system tests and the Chroma, retriever, model and clock calls
    wrap the fields of [Externals] and record an event for each call.  The
    memory object and the call of a chain are LangChain's, not the
    repository's: they are written out here as that library behaves for the
    arguments the scripts pass ([memory_key="chat_history"],
    [return_messages=True], [output_key="answer"],
    [return_source_documents=True]). *)

Definition os_path_isdir (path : string) : M bool :=
  λ w, (Ok (bool_decide (fs w !! path = Some Directory)), w).

Definition path_exists (path : string) : M bool :=
  λ w, (Ok (bool_decide (is_Some (fs w !! path))), w).

(** [os.path.join(a, b)] on POSIX *)
Definition os_path_join (a b : string) : string :=
  match b with
  | String "/" _ => b
  | _ => if decide (a = "") then b
         else if Py.endswith a "/" then a +:+ b
         else a +:+ "/" +:+ b
  end.

Definition Chroma_call (collection_name embedding persist_directory : string)
  : M VectorStore :=
  λ w, let '(r, fs') := Chroma (fs w) collection_name embedding persist_directory in
       (r, mkWorld (trace w ++ [ChromaOpen collection_name embedding persist_directory])
                   (ticks w) fs' (heap w)).

Definition Chroma_from_documents_call (documents : list Document)
    (collection_name embedding persist_directory : string) : M VectorStore :=
  λ w, let '(r, fs') :=
         Chroma_from_documents (fs w) documents collection_name embedding
                               persist_directory in
       (r, mkWorld (trace w ++ [ChromaFromDocuments documents collection_name
                                  embedding persist_directory])
                   (ticks w) fs' (heap w)).

(** [retriever.invoke(query)] *)
Definition Retriever_invoke (retriever : Retriever) (query : string)
  : M (list Document) :=
  let documents := similarity_search (store retriever) (search_k retriever) query in
  (emit (Retrieve query documents);; ret documents).

(** One call to the language model; [site] says which step of the
    pipeline makes it. *)
Definition llm_invoke (site : string → string → result string → Event)
    (llm : ChatOllama) (prompt : string) : M string :=
  λ w, let outcome := ChatOllama_invoke (ticks w) (model llm) (temperature llm) prompt in
       (outcome, mkWorld (trace w ++ [site (model llm) prompt outcome])
                         (S (ticks w)) (fs w) (heap w)).

(** [time.time()] *)
Definition now : M Q := (t <- tick;; ret (time_time t)).

(** [ConversationBufferMemory(...)]: a new, empty memory object *)
Definition ConversationBufferMemory : M nat :=
  λ w, (Ok (length (heap w)),
        mkWorld (trace w) (ticks w) (fs w) (heap w ++ [[]])).

(** [memory.load_memory_variables] with [return_messages=True] *)
Definition load_memory (memory : nat) : M (list BaseMessage) :=
  λ w, (Ok (default [] (heap w !! memory)), w).

(** [memory.save_context]: the question and the answer are appended *)
Definition save_context (memory : nat) (question answer : string) : M () :=
  λ w, (Ok (),
        mkWorld (trace w) (ticks w) (fs w)
          (alter (λ messages, messages ++ [HumanMessage question; AIMessage answer])
                 memory (heap w))).

(** Calling a [ConversationalRetrievalChain] built with a memory,
    [return_source_documents=True] and the given answering prompt: the
    stored messages are loaded, a follow-up question is first condensed
    into a standalone one, the retriever is queried, the model answers
    the filled prompt, and the turn is saved to the memory. *)
Definition Chain_call (chain : Chain) (question : string) : M Response :=
  chat_history <- load_memory (chain_memory chain);;
  let chat_history_str := get_chat_history chat_history in
  new_question <-
    (if decide (chat_history_str = "") then ret question
     else llm_invoke CondenseCall (chain_llm chain)
            (condense_question_prompt chat_history_str question));;
  docs <- Retriever_invoke (chain_retriever chain) new_question;;
  output <- llm_invoke AnswerCall (chain_llm chain)
              (chain_prompt chain chat_history_str new_question
                            (format_documents docs));;
  save_context (chain_memory chain) question output;;
  ret (mkResponse output (Some docs)).

(** *** [rag_chat_first.py] *)

(** [for file in files: docs.extend(load(file))] *)
Definition extend_loaded (load : string → result (list Document))
    (files : list string) (docs : list Document) : M (list Document) :=
  for_each (λ docs file, loaded <- lift (load file);; ret (docs ++ loaded))
           files docs.

Definition chunking (data_directory : string) : M (list Document) :=
  docs <- extend_loaded PyPDFLoader_load
            (glob_glob (os_path_join data_directory "*.pdf")) [];;
  docs <- extend_loaded UnstructuredWordDocumentLoader_load
            (glob_glob (os_path_join data_directory "*.docx")) docs;;
  loaded <- lift (DirectoryLoader_load data_directory "**/*.txt");;
  let docs := docs ++ loaded in
  lift (split_documents 500 100 docs).

Definition create_vector_store (db_directory : string) (chunks : list Document)
    (embedding : string) : M Retriever :=
  print "Creating vector store (this may take a while)";;
  vectorstore <- Chroma_from_documents_call chunks "chromemwah" embedding db_directory;;
  ret (as_retriever vectorstore).

Definition fetch_vector_store (db_directory embedding : string) : M Retriever :=
  print "Fetching vector store";;
  vectorstore <- Chroma_call "chromemwah" embedding db_directory;;
  ret (as_retriever vectorstore).

Definition retrieve (retrieving : Retriever) (question : string)
  : M (list Document) :=
  print "Retrieving";;
  documents <- Retriever_invoke retrieving question;;
  ret documents.

Definition generate (question documents use_llm : string) : M string :=
  print "Generating";;
  let llm := mkChatOllama use_llm 0 in
  output <- llm_invoke AnswerCall llm (rag_prompt question documents);;
  ret output.

(** The choice of the retriever in the [__main__] block. *)
Definition main_retriever (data_directory db_directory embedding : string)
  : M Retriever :=
  isdir <- os_path_isdir db_directory;;
  if negb isdir then
    (chunks <- chunking data_directory;;
     create_vector_store db_directory chunks embedding)
  else fetch_vector_store db_directory embedding.

(** The click handler, closed over [retriever] and [use_llm]. *)
Definition complete_rag (retriever : Retriever) (use_llm question : string)
  : M (string * string) :=
  docs <- retrieve retriever question;;
  output <- generate question (context_formatting docs) use_llm;;
  ret (source_formatting docs, output).

(** *** [rag_chat_session.py] *)

Definition prepare_documents (folder : string) : M (list Document) :=
  docs <- extend_loaded PyPDFLoader_load (Path_glob folder "*.pdf") [];;
  docs <- extend_loaded UnstructuredWordDocumentLoader_load
            (Path_glob folder "*.docx") docs;;
  loaded <- lift (DirectoryLoader_load folder "**/*.txt");;
  let docs := docs ++ loaded in
  lift (split_documents 500 100 docs).

Definition init_or_load_vectorstore (path : string) (docs : list Document)
    (embedding : string) : M VectorStore :=
  present <- path_exists path;;
  if present then
    (print "Loading vector store";;
     Chroma_call "rag_chat" embedding path)
  else
    (print "Creating new vector store";;
     Chroma_from_documents_call docs "rag_chat" embedding path).

Definition build_conversational_chain (llm : ChatOllama) (retriever : Retriever)
    (memory : nat) : Chain :=
  mkChain llm retriever memory conversational_prompt.

(** The submit handler, closed over the chain [qa].  [history.append]
    extends the list it was handed; the chat window and the session state
    both receive that one list. *)
Definition chat_with_memory (qa : Chain) (user_input : string)
    (history : list ChatEntry)
  : M (list ChatEntry * list ChatEntry * string * string) :=
  result <- Chain_call qa user_input;;
  let answer := answer result in
  let sources := default [] (source_documents result) in
  let formatted_sources := formatted_sources sources in
  let history := history ++ [mkChatEntry "user" user_input] in
  let history := history ++ [mkChatEntry "assistant" answer] in
  ret (history, history, formatted_sources, "").

(** The [__main__] block up to the chain the handler closes over. *)
Definition session_chain (docs_path db_path : string) : M Chain :=
  print "Launching session chat with memory";;
  let model_name := "llama3" in
  let embeddings := "intfloat/e5-base-v2" in
  docs <- prepare_documents docs_path;;
  vectorstore <- init_or_load_vectorstore db_path docs embeddings;;
  let retriever := as_retriever vectorstore in
  let retriever := mkRetriever (store retriever) 4 in
  memory <- ConversationBufferMemory;;
  ret (build_conversational_chain (mkChatOllama model_name (1 # 10)) retriever memory).

(** A conversation: Gradio calls the handler once per submitted question
    and hands it the state the previous call returned.  The result lists
    what the reference box showed after each turn, with the final state; the
    conversation is followed up to the first turn whose handler raises. *)
Fixpoint conversation (qa : Chain) (inputs : list string) (state : list ChatEntry)
  : M (list string * list ChatEntry) :=
  match inputs with
  | [] => ret ([], state)
  | user_input :: inputs' =>
      out <- chat_with_memory qa user_input state;;
      let '(_, state', reference_box, _) := out in
      rest <- conversation qa inputs' state';;
      ret (reference_box :: rest.1, rest.2)
  end.

(** *** [run_mpnet_tests.py] *)

Definition embedding_model_name : string := "sentence-transformers/all-MiniLM-L6-v2".
Definition llms_to_test : list string :=
  ["mistral:instruct"; "llama3"; "openhermes"; "zephyr"].
Definition output_file : string := "testresult_all-MiniLM-L6-v2.xlsx".
Definition questions : list string :=
  ["How do i make a Rainbow?"; "What currency do they have in Canada?"].

Definition build_chain (llm : ChatOllama) (retriever : Retriever) : M Chain :=
  memory <- ConversationBufferMemory;;
  ret (mkChain llm retriever memory benchmark_prompt).

(** The body of the inner loop. *)
Definition benchmark_question (chain : Chain) (llm_name : string)
    (results : list Row) (q : string) : M (list Row) :=
  start_time <- now;;
  response <- Chain_call chain q;;
  end_time <- now;;
  let elapsed := Py.round2 (end_time - start_time) in
  ret (results ++ [mkRow embedding_model_name llm_name q (answer response) elapsed]).

(** The body of the outer loop. *)
Definition benchmark_llm (retriever : Retriever) (questions : list string)
    (results : list Row) (llm_name : string) : M (list Row) :=
  print (Py.nl +:+ "== Testing LLM: " +:+ llm_name +:+ " ==");;
  let llm := mkChatOllama llm_name (1 # 10) in
  chain <- build_chain llm retriever;;
  for_each (benchmark_question chain llm_name) questions results.

(** The two loops and what follows them, for any lists of models and
    questions. *)
Definition benchmark (retriever : Retriever) (llms questions : list string)
  : M () :=
  results <- for_each (benchmark_llm retriever questions) llms [];;
  emit (ToExcel output_file results);;
  print (Py.nl +:+ "All tests completed. Results saved to: " +:+ output_file).

End Scripts.

(** ** Document preparation and start-up of [run_mpnet_tests.py] *)

Module Mpnet.
Section Script.
Context `{Externals}.

(** [os.listdir(folder)] *)
Variable os_listdir : string → result (list string).

Definition docs_path : string := "../docs".
Definition db_path : string := "../chroma_db".

(** The body of the loop over the listing: a name ending in [.pdf] goes to
    the PDF loader, one ending in [.docx] to the Word loader, any other
    name is passed over. *)
Definition load_listed (folder : string) (docs : list Document) (file : string)
  : M (list Document) :=
  if Py.str_endswith file ".pdf" then
    (loaded <- lift (PyPDFLoader_load (os_path_join folder file));;
     ret (docs ++ loaded))
  else if Py.str_endswith file ".docx" then
    (loaded <- lift (UnstructuredWordDocumentLoader_load (os_path_join folder file));;
     ret (docs ++ loaded))
  else ret docs.

Definition prepare_documents (folder : string) : M (list Document) :=
  files <- lift (os_listdir folder);;
  docs <- for_each (load_listed folder) files [];;
  loaded <- lift (DirectoryLoader_load folder "**/*.txt");;
  let docs := docs ++ loaded in
  lift (split_documents 500 100 docs).

(** The script from its first statement to the end of the sweep. *)
Definition run_mpnet_tests : M () :=
  present <- path_exists db_path;;
  (if negb present then
     (print "Creating vectorstore for embedding model...";;
      chunks <- prepare_documents docs_path;;
      Chroma_from_documents_call chunks "rag_chat" embedding_model_name db_path;;
      ret ())
   else print "Using existing ChromaDB.");;
  vectorstore <- Chroma_call "rag_chat" embedding_model_name db_path;;
  benchmark (as_retriever vectorstore) llms_to_test questions.

End Script.
End Mpnet.

(** ** Observations on outcomes and traces *)

(** The documents of a successful load, none for a failed one. *)
Definition loaded (r : result (list Document)) : list Document :=
  match r with Ok documents => documents | Raise _ => [] end.

(** A call to the language model that raised. *)
Definition failed_call (ev : Event) : Prop :=
  match ev with
  | CondenseCall _ _ (Raise _) | AnswerCall _ _ (Raise _) => True
  | _ => False
  end.

(** The tables written to disk, with their file names. *)
Definition writes (evs : list Event) : list (string * list Row) :=
  omap (λ ev, match ev with ToExcel file rows => Some (file, rows) | _ => None end) evs.

(** The answering prompts sent, with the model each was sent to. *)
Definition answer_prompts (evs : list Event) : list (string * string) :=
  omap (λ ev, match ev with
              | AnswerCall model prompt _ => Some (model, prompt)
              | _ => None
              end) evs.

(** The Retrieved Sets, one per query made. *)
Definition retrievals (evs : list Event) : list (list Document) :=
  omap (λ ev, match ev with Retrieve _ documents => Some documents | _ => None end) evs.

(** The outcome of a call with a function applied to its value. *)
Definition result_map {A B} (f : A → B) (r : result A) : result B :=
  match r with Ok a => Ok (f a) | Raise e => Raise e end.

(** The Gradio history that a sequence of turns (question, answer) gives. *)
Definition entries_of (turns : list (string * string)) : list ChatEntry :=
  turns ≫= λ '(question, answer),
    [mkChatEntry "user" question; mkChatEntry "assistant" answer].

(** The messages a memory holds after the turns recorded in [rows]. *)
Definition dialogue (rows : list Row) : list BaseMessage :=
  rows ≫= λ row, [HumanMessage (Fraga row); AIMessage (Modellens_Svar row)].

(** A run that stopped at a failed call to the language model: the call is
    the last event, no call before it failed, and nothing was written. *)
Definition aborted `{Externals} (e : string) (evs : list Event) : Prop :=
  ∃ before site llm t prompt,
    evs = before ++ [site (model llm) prompt (Raise e)]
    ∧ (site = CondenseCall ∨ site = AnswerCall)
    ∧ ChatOllama_invoke t (model llm) (temperature llm) prompt = Raise e
    ∧ Forall (λ ev, ¬ failed_call ev) before
    ∧ writes evs = [].

(** The latency of a row was measured between two readings of the clock,
    the first no later than the second. *)
Definition timed `{Externals} (row : Row) : Prop :=
  ∃ t1 t2, t1 ≤ t2
    ∧ Svarstid row = Py.round2 (time_time t2 - time_time t1)%Q.

(** The answering prompts of one chain, question after question: each is
    the template filled with the rendering of the messages stored so far,
    which are [history] followed by the turns of the rows before it. *)
Fixpoint prompts_follow `{Externals} (model : string)
    (template : string → string → string → string)
    (history : list BaseMessage) (rows : list Row)
    (prompts : list (string * string)) : Prop :=
  match rows, prompts with
  | [], [] => True
  | row :: rows', prompt :: prompts' =>
      (∃ new_question context,
         prompt = (model, template (get_chat_history history) new_question context))
      ∧ prompts_follow model template (history ++ dialogue [row]) rows' prompts'
  | _, _ => False
  end.

(** What the sweep records for one model: a row and a prompt per question,
    in the order of the questions, the prompts starting from an empty
    memory. *)
Definition model_block `{Externals} (questions : list string) (llm_name : string)
    (cell : list Row * list (string * string)) : Prop :=
  (λ row, (LLM row, Fraga row)) <$> cell.1 = (λ q, (llm_name, q)) <$> questions
  ∧ Forall timed cell.1
  ∧ prompts_follow llm_name benchmark_prompt [] cell.1 cell.2.

(** ** A small corpus and stand-ins for the libraries

    Used to run the scripts on concrete inputs. *)

#[global] Instance failed_call_dec (ev : Event) : Decision (failed_call ev).
Proof. destruct ev as [| | | |? ? []|? ? []|]; simpl; apply _. Defined.

Definition empty_world : World := mkWorld [] 0 ∅ [].

Definition sample_chunk (source text : string) : Document :=
  mkDocument text {[ "source" := source ]}.

Definition sample_chunks : list Document :=
  [sample_chunk "docs/b.pdf" ("rainbows need rain" +:+ Py.nl +:+ "and sun");
   mkDocument "the loonie" ∅].

(** [unreadable]: the file whose loader raises, if any.  [failing_call]: the
    number of the call to the backend the model fails on, if any.  [stored]:
    the chunks of the collection. *)
Definition sample_externals (unreadable : option string) (failing_call : option nat)
    (stored : list Document) : Externals := {|
  glob_glob pattern :=
    if decide (pattern = "docs/*.pdf") then ["docs/a.pdf"; "docs/b.pdf"] else [];
  Path_glob folder pattern :=
    if decide (pattern = "*.pdf") then [folder +:+ "/a.pdf"; folder +:+ "/b.pdf"]
    else [];
  PyPDFLoader_load file :=
    if decide (Some file = unreadable) then Raise "EOF marker not found"
    else Ok [sample_chunk file ("text of " +:+ file)];
  UnstructuredWordDocumentLoader_load file := Ok [sample_chunk file "a word file"];
  DirectoryLoader_load folder pattern := Ok [];
  split_documents chunk_size chunk_overlap docs := Ok docs;
  VectorStore := list Document;
  Chroma files collection_name embedding persist_directory :=
    (Ok stored, <[persist_directory := Directory]> files);
  Chroma_from_documents files documents collection_name embedding persist_directory :=
    (Ok documents, <[persist_directory := Directory]> files);
  similarity_search vectorstore k query := take k vectorstore;
  ChatOllama_invoke calls model temperature prompt :=
    if decide (Some calls = failing_call) then Raise "connection refused"
    else Ok ("answer " +:+ Py.str calls);
  time_time calls := inject_Z (Z.of_nat calls);
  get_chat_history messages :=
    Py.concat ((λ message,
                  match message with
                  | HumanMessage text => Py.nl +:+ "Human: " +:+ text
                  | AIMessage text => Py.nl +:+ "Assistant: " +:+ text
                  end) <$> messages);
  condense_question_prompt chat_history question :=
    "Chat History:" +:+ chat_history +:+ Py.nl +:+ "Follow Up Input: " +:+ question;
  format_documents documents := Py.join (Py.nl +:+ Py.nl) (page_content <$> documents)
|}.

(** The libraries with every file readable and every call answered. *)
Definition healthy : Externals := sample_externals None None sample_chunks.

(** The same with a PDF file whose loader raises. *)
Definition one_unreadable : Externals :=
  sample_externals (Some "docs/a.pdf") None sample_chunks.

(** The same with the sixth call to the backend failing. *)
Definition one_failed_call : Externals :=
  sample_externals None (Some 5) sample_chunks.

(** The same over an empty collection. *)
Definition empty_collection : Externals := sample_externals None None [].


(** A world in which one memory object has been created. *)
Definition session_world : World := mkWorld [] 0 ∅ [[]].

(** The chain of a chat session over the sample collection. *)
Definition sample_qa : @Chain healthy :=
  @build_conversational_chain healthy (mkChatOllama "llama3" (1 # 10))
    (@mkRetriever healthy sample_chunks 4) 0.

(** What the reference box shows for the sample collection. *)
Definition sample_references : string :=
  "[source1] docs/b.pdf" +:+ Py.nl +:+ Py.nl +:+ "[source2] unknown".

(** The messages a memory holds after a sequence of turns. *)
Definition messages_of (turns : list (string * string)) : list BaseMessage :=
  turns ≫= λ '(question, answer), [HumanMessage question; AIMessage answer].

(** The replies the model gave to the answering prompts. *)
Definition replies (evs : list Event) : list string :=
  omap (λ ev, match ev with
              | AnswerCall _ _ (Ok reply) => Some reply
              | _ => None
              end) evs.

(** What a run of answered cells leaves behind: the answers of the rows are
    the replies of the model in order, every row names the embedding model
    of the script, and [k] queries went to the retriever. *)
Definition recorded (k : nat) (evs : list Event) (rows : list Row) : Prop :=
  Modellens_Svar <$> rows = replies evs
  ∧ Forall (λ row, Embeddingmodell row = embedding_model_name) rows
  ∧ length (retrievals evs) = k.

(** The loader a listed file name selects in [run_mpnet_tests.py], applied
    to the file's path, if it selects one. *)
Definition listed_load `{Externals} (folder file : string)
  : option (result (list Document)) :=
  if Py.str_endswith file ".pdf"
  then Some (PyPDFLoader_load (os_path_join folder file))
  else if Py.str_endswith file ".docx"
  then Some (UnstructuredWordDocumentLoader_load (os_path_join folder file))
  else None.

(** The last character of a text, if it has one. *)
Fixpoint last_character (s : string) : option ascii :=
  match s with
  | "" => None
  | String c s' =>
      match s' with
      | "" => Some c
      | _ => last_character s'
      end
  end.

(** A text that is empty or ends in an ASCII character that is not white
    space: [str.strip] and [Py.strip] agree that nothing is to be removed
    at its end.  A text whose last byte is above 127 ends in a character
    outside ASCII, which may be white space for [str.strip], and is left
    out. *)
Definition plain_ending (s : string) : bool :=
  match last_character s with
  | None => true
  | Some c => bool_decide (nat_of_ascii c < 128) && negb (Py.isspace c)
  end.

(** A listing of the sample folder. *)
Definition sample_listing (folder : string) : result (list string) :=
  Ok ["a.pdf"; "notes.md"; "b.docx"].

(** A chunk whose source ends in a blank. *)
Definition padded_chunk : Document := sample_chunk "docs/c.pdf " "gamma".

(** * Properties *)

(** ** Strings *)

Section StringFacts.

Lemma str_app_cons c s t : String c s +:+ t = String c (s +:+ t).
Proof. reflexivity. Qed.

Lemma str_app_nil_l s : "" +:+ s = s.
Proof. reflexivity. Qed.

Lemma str_app_nil_r s : s +:+ "" = s.
Proof. induction s as [|c s IH]; [done|]. by rewrite str_app_cons, IH. Qed.

Lemma str_app_assoc s t u : (s +:+ t) +:+ u = s +:+ t +:+ u.
Proof. induction s as [|c s IH]; [done|]. by rewrite !str_app_cons, IH. Qed.

Lemma concat_cons p ps : Py.concat (p :: ps) = p +:+ Py.concat ps.
Proof. reflexivity. Qed.

Lemma concat_app ps qs : Py.concat (ps ++ qs) = Py.concat ps +:+ Py.concat qs.
Proof.
  induction ps as [|p ps IH]; [done|].
  by rewrite <- app_comm_cons, !concat_cons, IH, str_app_assoc.
Qed.

(** An accumulating [for] loop over [enumerate] is a concatenation. *)
Lemma accumulate_enumerate {A} (block : nat → A → string) (l : list A) :
  ∀ (k : nat) (acc : string),
    fold_left (λ acc '(index, x), acc +:+ block index x)
              (imap (λ i x, (k + i, x)) l) acc
    = acc +:+ Py.concat (imap (λ i x, block (k + i) x) l).
Proof.
  induction l as [|x l IH]; intros k acc.
  - by rewrite str_app_nil_r.
  - rewrite !imap_cons. cbn [fold_left]. rewrite concat_cons, <- str_app_assoc.
    rewrite Nat.add_0_r.
    rewrite (imap_ext _ (λ i x, (S k + i, x)) l)
      by (intros; simpl; f_equal; lia).
    rewrite IH. do 2 f_equal. apply imap_ext. intros; simpl; f_equal; lia.
Qed.

Lemma replace_chars old new s :
  String.list_ascii_of_string (Py.replace old (String new "") s)
  = (λ c, if decide (c = old) then new else c)
      <$> String.list_ascii_of_string s.
Proof.
  induction s as [|c s IH]; [done|]. simpl.
  destruct (decide (c = old)); rewrite ?str_app_cons, ?str_app_nil_l; simpl; by rewrite IH.
Qed.

End StringFacts.

(** ** Context Assembler *)

Lemma enumerate_offset {A} (l : list A) :
  Py.enumerate l = imap (λ i x, (0 + i, x)) l.
Proof. reflexivity. Qed.

(** C1.  The source mapping of a Retrieved Set of length n has exactly n
    entries, keyed 1..n in order and without gaps, and the entry keyed N
    carries the source field of the metadata of the (N-1)-th retrieved chunk,
    or "unknown" when that field is absent.  [source_formatting] renders the
    entries as "[docN]=source" blocks and strips the text as a whole;
    [chat_with_memory] joins them as "[sourceN] source" lines. *)
Theorem citation_mapping_entries (retrieved : list Document) :
  ∃ mapping : list (nat * string),
    mapping.*1 = seq 1 (length retrieved)
    ∧ mapping.*2
      = (λ chunk, default "unknown" (metadata chunk !! "source")) <$> retrieved
    ∧ source_formatting retrieved
      = Py.strip (Py.concat
          ((λ '(N, source), "[doc" +:+ Py.str N +:+ "]=" +:+ source
                            +:+ Py.nl +:+ Py.nl) <$> mapping))
    ∧ formatted_sources retrieved
      = Py.join (Py.nl +:+ Py.nl)
          ((λ '(N, source), "[source" +:+ Py.str N +:+ "] " +:+ source) <$> mapping).
Proof.
  exists (imap (λ i chunk, (i + 1, metadata_source chunk)) retrieved).
  repeat split.
  - rewrite fmap_imap.
    trans (id <$> seq 1 (length retrieved)); [|apply list_fmap_id].
    rewrite <- (imap_seq retrieved). apply imap_ext. intros; simpl; lia.
  - rewrite fmap_imap. apply imap_const.
  - unfold source_formatting. rewrite enumerate_offset.
    rewrite (accumulate_enumerate
               (λ index document, "[doc" +:+ Py.str (index + 1) +:+ "]="
                  +:+ metadata_source document +:+ Py.nl +:+ Py.nl)).
    rewrite str_app_nil_l, fmap_imap. do 2 f_equal.
  - unfold formatted_sources, source_entries, Py.enumerate.
    by rewrite !fmap_imap.
Qed.

(** C4.  The assembled context is the concatenation, in retrieval order, of
    one block per chunk: the 1-based positional tag [docN], an equals sign,
    the chunk's content with every newline replaced by one space, and a
    blank line that separates the block from the next. *)
Theorem context_formatting_blocks (retrieved : list Document) :
  context_formatting retrieved
  = Py.concat
      (imap (λ i chunk,
               "[doc" +:+ Py.str (i + 1) +:+ "]="
               +:+ Py.replace "010" " " (page_content chunk)
               +:+ Py.nl +:+ Py.nl) retrieved)
  ∧ ∀ chunk : Document,
      String.list_ascii_of_string (Py.replace "010" " " (page_content chunk))
      = (λ c, if decide (c = "010"%char) then " "%char else c)
          <$> String.list_ascii_of_string (page_content chunk).
Proof.
  split.
  - unfold context_formatting. rewrite enumerate_offset.
    rewrite (accumulate_enumerate
               (λ index document, "[doc" +:+ Py.str (index + 1) +:+ "]="
                  +:+ Py.replace "010" " " (page_content document)
                  +:+ Py.nl +:+ Py.nl)).
    by rewrite str_app_nil_l.
  - intros chunk. apply replace_chars.
Qed.

(** ** Single-turn pipeline *)

Section SingleTurn.
Context `{Externals}.

(** C9.  When the retriever returns no chunk for a question, the
    assembler yields the empty context and the empty source text, and the
    language model is still called, on the prompt built from the question
    and that empty context; the handler returns exactly what that call
    returns, paired with the empty source text. *)
Theorem complete_rag_empty_retrieval (retriever : Retriever)
    (use_llm question : string) (w : World) :
  similarity_search (store retriever) (search_k retriever) question = [] →
  let prompt := rag_prompt question "" in
  let outcome := ChatOllama_invoke (ticks w) use_llm 0 prompt in
  context_formatting [] = "" ∧ source_formatting [] = ""
  ∧ complete_rag retriever use_llm question w
    = (match outcome with
       | Ok output => Ok ("", output)
       | Raise e => Raise e
       end,
       mkWorld (trace w ++ [Print "Retrieving"; Retrieve question [];
                            Print "Generating"; AnswerCall use_llm prompt outcome])
               (S (ticks w)) (fs w) (heap w)).
Proof.
  intros Hempty prompt outcome. split; [done|]. split; [done|].
  unfold complete_rag, retrieve, generate, Retriever_invoke, llm_invoke,
    print, emit, bind, ret.
  rewrite Hempty. cbn -[rag_prompt].
  change (context_formatting []) with "". fold prompt. fold outcome.
  rewrite <- !(assoc_L (++)). cbn [app].
  by destruct outcome.
Qed.

End SingleTurn.

(** ** Ingestion *)

Section Ingestion.
Context `{Externals}.

Lemma extend_loaded_world load files : ∀ docs w,
  (extend_loaded load files docs w).2 = w.
Proof.
  induction files as [|file files IH]; intros docs w; [done|].
  unfold extend_loaded in *. cbn [for_each]. unfold bind at 1, bind at 1, lift, ret.
  destruct (load file); [apply IH|done].
Qed.

Lemma extend_loaded_ok load files : ∀ docs w,
  Forall (is_Ok ∘ load) files →
  (extend_loaded load files docs w).1
  = Ok (docs ++ flat_map (loaded ∘ load) files).
Proof.
  induction files as [|file files IH]; intros docs w Hok.
  - by rewrite app_nil_r.
  - inversion Hok as [|? ? Hfile Hfiles]; subst.
    unfold extend_loaded in *. cbn [for_each flat_map].
    unfold bind at 1, bind at 1, lift, ret. unfold compose in *.
    destruct (load file) as [l|]; [|done].
    rewrite IH by done. by rewrite (assoc_L (++)).
Qed.

Lemma extend_loaded_is_Ok load files : ∀ docs w,
  is_Ok (extend_loaded load files docs w).1 → Forall (is_Ok ∘ load) files.
Proof.
  induction files as [|file files IH]; intros docs w Hok; [constructor|].
  unfold extend_loaded in *. cbn [for_each] in Hok.
  unfold bind at 1, bind at 1, lift, ret in Hok. unfold compose.
  destruct (load file) as [l|] eqn:Hfile; [|done].
  constructor; [by rewrite Hfile|]. by eapply IH.
Qed.

(** The common shape of [chunking] and [prepare_documents]. *)
Lemma load_and_split (pdfs docxs : list string) (folder : string) (w : World) :
  let txt := DirectoryLoader_load folder "**/*.txt" in
  let all_loaded :=
    Forall (is_Ok ∘ PyPDFLoader_load) pdfs
    ∧ Forall (is_Ok ∘ UnstructuredWordDocumentLoader_load) docxs
    ∧ is_Ok txt in
  let documents :=
    flat_map (loaded ∘ PyPDFLoader_load) pdfs
    ++ flat_map (loaded ∘ UnstructuredWordDocumentLoader_load) docxs
    ++ loaded txt in
  let run :=
    (docs <- extend_loaded PyPDFLoader_load pdfs [];;
     docs <- extend_loaded UnstructuredWordDocumentLoader_load docxs docs;;
     loaded <- lift txt;;
     let docs := docs ++ loaded in
     lift (split_documents 500 100 docs)) w in
  run.2 = w
  ∧ (all_loaded → run.1 = split_documents 500 100 documents)
  ∧ (is_Ok run.1 → all_loaded).
Proof.
  intros txt all_loaded documents run. subst run all_loaded documents.
  unfold bind, lift.
  pose proof (extend_loaded_world PyPDFLoader_load pdfs [] w) as Hw1.
  pose proof (extend_loaded_ok PyPDFLoader_load pdfs [] w) as Hok1.
  pose proof (extend_loaded_is_Ok PyPDFLoader_load pdfs [] w) as Hinv1.
  destruct (extend_loaded PyPDFLoader_load pdfs [] w) as [[docs1|e1] w1];
    simpl in Hw1; subst w1.
  2:{ split; [done|]. split; [|done]. intros (Hp & _ & _).
      by specialize (Hok1 Hp). }
  pose proof (extend_loaded_world UnstructuredWordDocumentLoader_load docxs docs1 w) as Hw2.
  pose proof (extend_loaded_ok UnstructuredWordDocumentLoader_load docxs docs1 w) as Hok2.
  pose proof (extend_loaded_is_Ok UnstructuredWordDocumentLoader_load docxs docs1 w) as Hinv2.
  destruct (extend_loaded UnstructuredWordDocumentLoader_load docxs docs1 w)
    as [[docs2|e2] w2]; simpl in Hw2; subst w2.
  2:{ split; [done|]. split; [|done]. intros (_ & Hd & _).
      by specialize (Hok2 Hd). }
  destruct txt as [ltxt|etxt] eqn:Htxt; simpl.
  2:{ split; [done|]. split; [|done]. by intros (_ & _ & ?). }
  split; [done|]. split.
  - intros (Hp & Hd & _). specialize (Hok1 Hp). specialize (Hok2 Hd).
    simpl in Hok1, Hok2. simplify_eq. by rewrite <- !(assoc_L (++)).
  - intros _. split; [by apply Hinv1|]. split; [by apply Hinv2|done].
Qed.

Lemma chunking_world (data_directory : string) (w : World) :
  (chunking data_directory w).2 = w.
Proof.
  apply (load_and_split (glob_glob (os_path_join data_directory "*.pdf"))
           (glob_glob (os_path_join data_directory "*.docx")) data_directory w).
Qed.

(** C5, as the code has it.  Ingestion is all or nothing: [chunking] and
    [prepare_documents] leave the world as it is, return the split of all
    loaded documents (PDF files, then DOCX files, then the text files)
    when every loader call succeeds, and return no chunks at all as soon
    as one loader call raises. *)
Theorem ingestion_all_or_nothing (folder : string) (w : World) :
  let all_loaded (pdfs docxs : list string) :=
    Forall (is_Ok ∘ PyPDFLoader_load) pdfs
    ∧ Forall (is_Ok ∘ UnstructuredWordDocumentLoader_load) docxs
    ∧ is_Ok (DirectoryLoader_load folder "**/*.txt") in
  let documents (pdfs docxs : list string) :=
    flat_map (loaded ∘ PyPDFLoader_load) pdfs
    ++ flat_map (loaded ∘ UnstructuredWordDocumentLoader_load) docxs
    ++ loaded (DirectoryLoader_load folder "**/*.txt") in
  let globbed := (glob_glob (os_path_join folder "*.pdf"),
                  glob_glob (os_path_join folder "*.docx")) in
  let listed := (Path_glob folder "*.pdf", Path_glob folder "*.docx") in
  ((chunking folder w).2 = w
   ∧ (all_loaded globbed.1 globbed.2 →
      (chunking folder w).1 = split_documents 500 100 (documents globbed.1 globbed.2))
   ∧ (¬ all_loaded globbed.1 globbed.2 → ¬ is_Ok (chunking folder w).1))
  ∧ ((prepare_documents folder w).2 = w
     ∧ (all_loaded listed.1 listed.2 →
        (prepare_documents folder w).1
        = split_documents 500 100 (documents listed.1 listed.2))
     ∧ (¬ all_loaded listed.1 listed.2 → ¬ is_Ok (prepare_documents folder w).1)).
Proof.
  intros all_loaded documents globbed listed. split.
  - destruct (load_and_split globbed.1 globbed.2 folder w) as (Hw & Hok & Hinv).
    split; [exact Hw|]. split; [exact Hok|]. intros Hnot Hret. by apply Hnot, Hinv.
  - destruct (load_and_split listed.1 listed.2 folder w) as (Hw & Hok & Hinv).
    split; [exact Hw|]. split; [exact Hok|]. intros Hnot Hret. by apply Hnot, Hinv.
Qed.

End Ingestion.

(** ** Index Store *)

Section IndexStore.
Context `{Externals}.

(** C3.  Whether the store is reopened or built is decided by the
    presence of the persist path alone.  [init_or_load_vectorstore] reopens
    the collection, whatever chunks it was handed, exactly when the path
    exists, and otherwise embeds and persists the chunks it was handed; the
    [__main__] block of [rag_chat_first.py] does the same on the path being
    a directory, and calls the chunker on the build path only. *)
Theorem open_or_build_by_existence (path embedding data_directory : string)
    (docs : list Document) (w : World) :
  let present := bool_decide (is_Some (fs w !! path)) in
  let isdir := bool_decide (fs w !! path = Some Directory) in
  let load collection := Chroma (fs w) collection embedding path in
  let build collection chunks :=
    Chroma_from_documents (fs w) chunks collection embedding path in
  (let '(r, w') := init_or_load_vectorstore path docs embedding w in
   (r, fs w') = (if present then load "rag_chat" else build "rag_chat" docs)
   ∧ trace w'
     = trace w ++
       (if present
        then [Print "Loading vector store"; ChromaOpen "rag_chat" embedding path]
        else [Print "Creating new vector store";
              ChromaFromDocuments docs "rag_chat" embedding path]))
  ∧ (let '(r, w') := main_retriever data_directory path embedding w in
     (r, fs w')
     = (if isdir
        then (result_map as_retriever (load "chromemwah").1, (load "chromemwah").2)
        else match (chunking data_directory w).1 with
             | Ok chunks =>
                 (result_map as_retriever (build "chromemwah" chunks).1,
                  (build "chromemwah" chunks).2)
             | Raise e => (Raise e, fs w)
             end)
     ∧ trace w'
       = trace w ++
         (if isdir
          then [Print "Fetching vector store"; ChromaOpen "chromemwah" embedding path]
          else match (chunking data_directory w).1 with
               | Ok chunks =>
                   [Print "Creating vector store (this may take a while)";
                    ChromaFromDocuments chunks "chromemwah" embedding path]
               | Raise _ => []
               end)).
Proof.
  intros present isdir load build. split.
  - unfold init_or_load_vectorstore, path_exists, bind at 1.
    fold present. destruct present.
    + unfold bind, print, emit, Chroma_call. cbn [trace fs ticks heap].
      subst load. cbv beta.
      destruct (Chroma (fs w) "rag_chat" embedding path) as [r fs'].
      cbn [trace fs]. by rewrite <- (assoc_L (++)).
    + unfold bind, print, emit, Chroma_from_documents_call. cbn [trace fs ticks heap].
      subst build. cbv beta.
      destruct (Chroma_from_documents (fs w) docs "rag_chat" embedding path)
        as [r fs'].
      cbn [trace fs]. by rewrite <- (assoc_L (++)).
  - unfold main_retriever, os_path_isdir, bind at 1.
    fold isdir. destruct isdir; cbn [negb].
    + unfold fetch_vector_store, bind, print, emit, Chroma_call, ret.
      cbn [trace fs ticks heap]. subst load. cbv beta.
      destruct (Chroma (fs w) "chromemwah" embedding path) as [[vs|e] fs'];
        cbn [trace fs result_map fst snd]; by rewrite <- (assoc_L (++)).
    + unfold bind at 1.
      pose proof (chunking_world data_directory w) as Hw.
      destruct (chunking data_directory w) as [[chunks|e] w1];
        cbn [fst snd] in *; subst w1.
      2:{ by rewrite app_nil_r. }
      unfold create_vector_store, bind, print, emit, Chroma_from_documents_call, ret.
      cbn [trace fs ticks heap]. subst build. cbv beta.
      destruct (Chroma_from_documents (fs w) chunks "chromemwah" embedding path)
        as [[vs|e] fs'];
        cbn [trace fs result_map fst snd]; by rewrite <- (assoc_L (++)).
Qed.

End IndexStore.

(** ** The conversational chain *)

Section ChainFacts.
Context `{Externals}.

Lemma bind_unfold {A B} (m : M A) (k : A → M B) (w : World) :
  bind m k w
  = match m w with
    | (Ok a, w') => k a w'
    | (Raise e, w') => (Raise e, w')
    end.
Proof. reflexivity. Qed.

Lemma writes_app evs1 evs2 : writes (evs1 ++ evs2) = writes evs1 ++ writes evs2.
Proof. apply omap_app. Qed.

Lemma answer_prompts_app evs1 evs2 :
  answer_prompts (evs1 ++ evs2) = answer_prompts evs1 ++ answer_prompts evs2.
Proof. apply omap_app. Qed.

Lemma retrievals_app evs1 evs2 :
  retrievals (evs1 ++ evs2) = retrievals evs1 ++ retrievals evs2.
Proof. apply omap_app. Qed.

(** What one call of a chain does, whether the model answers or not. *)
Lemma Chain_call_summary (chain : Chain) (question : string) (w : World) :
  let memory := chain_memory chain in
  let history := default [] (heap w !! memory) in
  let w' := (Chain_call chain question w).2 in
  ∃ evs n,
    trace w' = trace w ++ evs ∧ ticks w' = ticks w + n ∧ fs w' = fs w
    ∧ writes evs = []
    ∧ match (Chain_call chain question w).1 with
      | Ok response =>
          Forall (λ ev, ¬ failed_call ev) evs
          ∧ heap w'
            = alter (λ messages, messages ++ [HumanMessage question;
                                              AIMessage (answer response)])
                    memory (heap w)
          ∧ ∃ docs new_question,
              source_documents response = Some docs
              ∧ retrievals evs = [docs]
              ∧ answer_prompts evs
                = [(model (chain_llm chain),
                    chain_prompt chain (get_chat_history history) new_question
                                 (format_documents docs))]
      | Raise e => heap w' = heap w ∧ aborted e evs
      end.
Proof.
  intros memory history w'. subst w'.
  destruct (Chain_call chain question w) as [r w'] eqn:Hcall. cbn [fst snd].
  unfold Chain_call, load_memory, Retriever_invoke, llm_invoke, save_context,
    emit, bind, ret in Hcall.
  fold memory in Hcall. fold history in Hcall.
  set (hs := get_chat_history history) in *.
  destruct (decide (hs = "")) as [Hs|Hs].
  - cbn [trace ticks fs heap] in Hcall.
    set (docs := similarity_search _ _ question) in Hcall.
    set (prompt := chain_prompt chain hs question (format_documents docs)) in Hcall.
    destruct (ChatOllama_invoke (ticks w) (model (chain_llm chain))
                (temperature (chain_llm chain)) prompt) as [out|e] eqn:Hout;
      simplify_eq; cbn [trace ticks fs heap fst snd answer source_documents].
    + exists [Retrieve question docs; AnswerCall (model (chain_llm chain)) prompt (Ok out)], 1.
      rewrite <- (assoc_L (++)). repeat split; try done; try lia.
      * repeat constructor; by intros [].
      * by exists docs, question.
    + exists [Retrieve question docs; AnswerCall (model (chain_llm chain)) prompt (Raise e)], 1.
      rewrite <- (assoc_L (++)). repeat split; try done; try lia.
      exists [Retrieve question docs], AnswerCall, (chain_llm chain), (ticks w), prompt.
      repeat split; try done; [by right|]. repeat constructor; by intros [].
  - set (cprompt := condense_question_prompt hs question) in Hcall.
    destruct (ChatOllama_invoke (ticks w) (model (chain_llm chain))
                (temperature (chain_llm chain)) cprompt) as [new_question|e] eqn:Hc.
    2:{ simplify_eq. cbn [trace ticks fs heap fst snd].
        exists [CondenseCall (model (chain_llm chain)) cprompt (Raise e)], 1.
        repeat split; try done; try lia.
        exists [], CondenseCall, (chain_llm chain), (ticks w), cprompt.
        repeat split; try done; by left. }
    cbn [trace ticks fs heap] in Hcall.
    set (docs := similarity_search _ _ new_question) in Hcall.
    set (prompt := chain_prompt chain hs new_question (format_documents docs)) in Hcall.
    destruct (ChatOllama_invoke (S (ticks w)) (model (chain_llm chain))
                (temperature (chain_llm chain)) prompt) as [out|e] eqn:Hout;
      simplify_eq; cbn [trace ticks fs heap fst snd answer source_documents].
    + exists [CondenseCall (model (chain_llm chain)) cprompt (Ok new_question);
              Retrieve new_question docs;
              AnswerCall (model (chain_llm chain)) prompt (Ok out)], 2.
      rewrite <- !(assoc_L (++)). repeat split; try done; try lia.
      * repeat constructor; by intros [].
      * by exists docs, new_question.
    + exists [CondenseCall (model (chain_llm chain)) cprompt (Ok new_question);
              Retrieve new_question docs;
              AnswerCall (model (chain_llm chain)) prompt (Raise e)], 2.
      rewrite <- !(assoc_L (++)). repeat split; try done; try lia.
      exists [CondenseCall (model (chain_llm chain)) cprompt (Ok new_question);
              Retrieve new_question docs], AnswerCall, (chain_llm chain),
             (S (ticks w)), prompt.
      repeat split; try done; [by right|]. repeat constructor; by intros [].
Qed.

End ChainFacts.

(** ** Conversation Session *)

Section Session.
Context `{Externals}.

Lemma entries_of_snoc turns question reply :
  entries_of (turns ++ [(question, reply)])
  = entries_of turns
    ++ [mkChatEntry "user" question; mkChatEntry "assistant" reply].
Proof. unfold entries_of. by rewrite bind_app. Qed.

Lemma chat_with_memory_unfold (qa : Chain) (user_input : string)
    (history : list ChatEntry) (w : World) :
  chat_with_memory qa user_input history w
  = (match (Chain_call qa user_input w).1 with
     | Ok response =>
         let state :=
           history ++ [mkChatEntry "user" user_input;
                       mkChatEntry "assistant" (answer response)] in
         Ok (state, state,
             formatted_sources (default [] (source_documents response)), "")
     | Raise e => Raise e
     end,
     (Chain_call qa user_input w).2).
Proof.
  unfold chat_with_memory, bind, ret.
  destruct (Chain_call qa user_input w) as [[response|e] w']; [|done].
  cbn [fst snd]. by rewrite <- (assoc_L (++)).
Qed.

(** C7.  A call of the handler that the chain answers returns the
    history it was given followed by the two entries of the new turn, the
    question and the answer, and nothing else: seen as a sequence of turns
    the history grows by exactly one element, and every earlier entry
    stays in place.  The memory of the chain grows by the same turn, and a
    call that raises adds nothing to it. *)
Theorem session_grows_by_one_turn (qa : Chain) (user_input : string)
    (history : list ChatEntry) (w : World) :
  chat_with_memory qa user_input history w
  = (match (Chain_call qa user_input w).1 with
     | Ok response =>
         let state :=
           history ++ [mkChatEntry "user" user_input;
                       mkChatEntry "assistant" (answer response)] in
         Ok (state, state,
             formatted_sources (default [] (source_documents response)), "")
     | Raise e => Raise e
     end,
     (Chain_call qa user_input w).2)
  ∧ (∀ turns reply,
       entries_of (turns ++ [(user_input, reply)])
       = entries_of turns
         ++ [mkChatEntry "user" user_input; mkChatEntry "assistant" reply]
       ∧ length (turns ++ [(user_input, reply)]) = S (length turns)
       ∧ entries_of turns `prefix_of` entries_of (turns ++ [(user_input, reply)]))
  ∧ match (Chain_call qa user_input w).1 with
    | Ok response =>
        heap (Chain_call qa user_input w).2
        = alter (λ messages, messages ++ [HumanMessage user_input;
                                          AIMessage (answer response)])
                (chain_memory qa) (heap w)
    | Raise _ => heap (Chain_call qa user_input w).2 = heap w
    end.
Proof.
  split; [apply chat_with_memory_unfold|]. split.
  - intros turns reply. rewrite entries_of_snoc. split; [done|].
    split; [rewrite length_app; simpl; lia|]. by eexists.
  - destruct (Chain_call_summary qa user_input w) as (evs & n & _ & _ & _ & _ & Hr).
    destruct (Chain_call qa user_input w).1;
      [by destruct Hr as (_ & ? & _)|by destruct Hr].
Qed.

(** Over a whole conversation: one turn per submitted question. *)
Lemma conversation_turns (qa : Chain) (inputs : list string) :
  ∀ (turns : list (string * string)) (w : World) boxes state',
    (conversation qa inputs (entries_of turns) w).1 = Ok (boxes, state') →
    ∃ replies,
      length replies = length inputs
      ∧ state' = entries_of (turns ++ zip inputs replies).
Proof.
  induction inputs as [|user_input inputs IH]; intros turns w boxes state' Hrun.
  - cbn in Hrun. simplify_eq. exists []. by rewrite app_nil_r.
  - cbn [conversation] in Hrun. rewrite bind_unfold in Hrun.
    rewrite chat_with_memory_unfold in Hrun.
    destruct (Chain_call qa user_input w) as [[response|e] w1]; [|done].
    cbn [fst snd] in Hrun. rewrite <- entries_of_snoc, bind_unfold in Hrun.
    pose proof (IH (turns ++ [(user_input, answer response)]) w1) as IH1.
    destruct (conversation qa inputs _ w1) as [[[boxes1 state1]|e] w2]; [|done].
    unfold ret in Hrun. cbn [fst snd] in *. simplify_eq.
    destruct (IH1 boxes1 state' eq_refl) as (replies & Hlen & ->).
    exists (answer response :: replies). split; [simpl; by rewrite Hlen|].
    by rewrite <- (assoc_L (++)).
Qed.

Lemma formatted_sources_closed (sources : list Document) :
  formatted_sources sources
  = Py.join (Py.nl +:+ Py.nl)
      (imap (λ i chunk, "[source" +:+ Py.str (i + 1) +:+ "] "
                        +:+ default "unknown" (metadata chunk !! "source"))
            sources).
Proof.
  unfold formatted_sources, source_entries, Py.enumerate. by rewrite fmap_imap.
Qed.

(** C2.  In a conversation, whatever its length and whatever the state
    and the world it starts from, the references shown after a turn are
    the sources of the chunks retrieved in that turn, numbered from 1 in
    retrieval order: each turn's numbering is a function of that turn's
    Retrieved Set alone. *)
Theorem citations_renumbered_each_turn (qa : Chain) (inputs : list string)
    (state : list ChatEntry) (w : World)
    (boxes : list string) (state' : list ChatEntry) :
  (conversation qa inputs state w).1 = Ok (boxes, state') →
  ∃ evs,
    trace (conversation qa inputs state w).2 = trace w ++ evs
    ∧ length (retrievals evs) = length inputs
    ∧ boxes
      = (λ retrieved,
           Py.join (Py.nl +:+ Py.nl)
             (imap (λ i chunk, "[source" +:+ Py.str (i + 1) +:+ "] "
                               +:+ default "unknown" (metadata chunk !! "source"))
                   retrieved))
        <$> retrievals evs.
Proof.
  revert state w boxes state'.
  induction inputs as [|user_input inputs IH]; intros state w boxes state' Hrun.
  - cbn in Hrun. simplify_eq. exists []. cbn. by rewrite app_nil_r.
  - cbn [conversation] in *. rewrite bind_unfold in *.
    rewrite chat_with_memory_unfold in *.
    destruct (Chain_call_summary qa user_input w)
      as (evs1 & n & Htrace & _ & _ & _ & Hr).
    destruct (Chain_call qa user_input w) as [[response|e] w1]; [|done].
    cbn [fst snd] in *. destruct Hr as (_ & _ & docs & nq & Hdocs & Hretr & _).
    rewrite bind_unfold in *.
    set (state1 := state ++ _) in *.
    pose proof (IH state1 w1) as IH1.
    destruct (conversation qa inputs state1 w1) as [[[boxes1 state2]|e] w2];
      [|done].
    unfold ret in *. cbn [fst snd] in *. simplify_eq.
    destruct (IH1 boxes1 state' eq_refl) as (evs2 & Htrace2 & Hlen & Hboxes).
    exists (evs1 ++ evs2). rewrite Htrace2, Htrace, retrievals_app, Hretr.
    rewrite (assoc_L (++)). split; [done|]. split; [simpl; by rewrite Hlen|].
    rewrite Hdocs. cbn [default fmap list_fmap app].
    by rewrite formatted_sources_closed, Hboxes.
Qed.

End Session.

(** ** Benchmark Harness *)

Section Benchmark.
Context `{Externals}.

Lemma aborted_prepend (e : string) (evs1 evs2 : list Event) :
  Forall (λ ev, ¬ failed_call ev) evs1 → writes evs1 = [] →
  aborted e evs2 → aborted e (evs1 ++ evs2).
Proof.
  intros Hok Hw (before & site & llm & t & prompt & -> & Hsite & Hcall & Hbefore & Hwrites).
  exists (evs1 ++ before), site, llm, t, prompt.
  rewrite (assoc_L (++)). split; [done|]. split; [done|]. split; [done|].
  split; [by apply Forall_app|].
  rewrite <- (assoc_L (++)), writes_app, Hw. apply Hwrites.
Qed.

Lemma dialogue_app rows1 rows2 :
  dialogue (rows1 ++ rows2) = dialogue rows1 ++ dialogue rows2.
Proof. apply bind_app. Qed.

(** One iteration of the inner loop. *)
Lemma benchmark_question_summary (chain : Chain) (llm_name : string)
    (results : list Row) (q : string) (w : World) :
  let memory := chain_memory chain in
  let history := default [] (heap w !! memory) in
  let run := benchmark_question chain llm_name results q w in
  ∃ evs n,
    trace run.2 = trace w ++ evs ∧ ticks run.2 = ticks w + n ∧ fs run.2 = fs w
    ∧ writes evs = []
    ∧ match run.1 with
      | Ok results' =>
          Forall (λ ev, ¬ failed_call ev) evs
          ∧ ∃ row new_question context,
              results' = results ++ [row]
              ∧ (LLM row, Fraga row) = (llm_name, q)
              ∧ timed row
              ∧ heap run.2
                = alter (λ messages, messages ++ dialogue [row]) memory (heap w)
              ∧ answer_prompts evs
                = [(model (chain_llm chain),
                    chain_prompt chain (get_chat_history history)
                                 new_question context)]
      | Raise e => aborted e evs
      end.
Proof.
  intros memory history run. subst run.
  destruct (benchmark_question chain llm_name results q w) as [r w'] eqn:Hrun.
  cbn [fst snd].
  unfold benchmark_question, now, tick, bind, ret in Hrun.
  set (w1 := mkWorld (trace w) (S (ticks w)) (fs w) (heap w)) in Hrun.
  destruct (Chain_call_summary chain q w1)
    as (evs & n & Htrace & Hticks & Hfs & Hwrites & Hr).
  destruct (Chain_call chain q w1) as [[response|e] w2]; cbn [fst snd] in *;
    simplify_eq; cbn [trace ticks fs heap].
  - destruct Hr as (Hok & Hheap & docs & nq & _ & _ & Hprompts).
    exists evs, (S (S n)). rewrite Htrace, Hticks, Hfs. subst w1.
    cbn [trace ticks fs heap] in *.
    repeat split; try done; try lia.
    eexists _, nq, (format_documents docs). repeat split; try done.
    exists (ticks w), (S (ticks w) + n). split; [lia|done].
  - destruct Hr as (_ & Habort). exists evs, (S n).
    rewrite Htrace, Hticks, Hfs. subst w1. cbn [trace ticks fs heap].
    repeat split; try done; lia.
Qed.

(** The inner loop, for a chain whose memory object exists. *)
Lemma inner_loop_summary (chain : Chain) (llm_name : string) (qs : list string) :
  ∀ (results : list Row) (w : World),
    chain_memory chain < length (heap w) →
    let memory := chain_memory chain in
    let history := default [] (heap w !! memory) in
    let run := for_each (benchmark_question chain llm_name) qs results w in
    ∃ evs n,
      trace run.2 = trace w ++ evs ∧ ticks run.2 = ticks w + n ∧ fs run.2 = fs w
      ∧ writes evs = []
      ∧ match run.1 with
        | Ok results' =>
            Forall (λ ev, ¬ failed_call ev) evs
            ∧ ∃ rows,
                results' = results ++ rows
                ∧ (λ row, (LLM row, Fraga row)) <$> rows
                  = (λ q, (llm_name, q)) <$> qs
                ∧ Forall timed rows
                ∧ heap run.2
                  = alter (λ messages, messages ++ dialogue rows) memory (heap w)
                ∧ prompts_follow (model (chain_llm chain)) (chain_prompt chain)
                    history rows (answer_prompts evs)
        | Raise e => aborted e evs
        end.
Proof.
  induction qs as [|q qs IH]; intros results w Hmem memory history run; subst run.
  - exists [], 0. cbn. rewrite !app_nil_r.
    repeat split; try done; try lia.
    exists []. rewrite app_nil_r. repeat split; try done.
    symmetry. apply list_eq. intros i. rewrite list_lookup_alter.
    destruct (decide (memory = i)) as [<-|?]; [|done].
    destruct (heap w !! memory); simpl; by rewrite ?app_nil_r.
  - cbn [for_each]. rewrite bind_unfold.
    destruct (benchmark_question_summary chain llm_name results q w)
      as (evs1 & n1 & Htrace1 & Hticks1 & Hfs1 & Hw1 & Hr1).
    destruct (benchmark_question chain llm_name results q w) as [[results1|e] w1];
      cbn [fst snd] in *.
    2:{ exists evs1, n1. by repeat split. }
    destruct Hr1 as (Hok1 & row & nq & ctx & -> & Hrow & Htimed & Hheap1 & Hp1).
    assert (Hmem1 : chain_memory chain < length (heap w1)).
    { by rewrite Hheap1, length_alter. }
    destruct (IH (results ++ [row]) w1 Hmem1)
      as (evs2 & n2 & Htrace2 & Hticks2 & Hfs2 & Hw2 & Hr2).
    exists (evs1 ++ evs2), (n1 + n2).
    rewrite Htrace2, Htrace1, Hticks2, Hticks1, Hfs2, Hfs1, writes_app, Hw1, Hw2.
    rewrite (assoc_L (++)).
    split; [done|]. split; [lia|]. split; [done|]. split; [done|].
    destruct (for_each (benchmark_question chain llm_name) qs (results ++ [row]) w1)
      as [[results2|e] w2]; cbn [fst snd] in *.
    2:{ by apply aborted_prepend. }
    destruct Hr2 as (Hok2 & rows & -> & Hcells & Htimeds & Hheap2 & Hp2).
    split; [by apply Forall_app|].
    exists (row :: rows). rewrite <- (assoc_L (++)). split; [done|].
    split; [cbn [fmap list_fmap]; by rewrite Hrow, Hcells|].
    split; [by constructor|].
    assert (Hlookup : heap w1 !! chain_memory chain
                      = Some (history ++ dialogue [row])).
    { rewrite Hheap1, list_lookup_alter_eq. subst history memory.
      destruct (lookup_lt_is_Some_2 _ _ Hmem) as [h ->]. done. }
    split.
    + rewrite Hheap2, Hheap1. apply list_eq. intros i.
      rewrite !list_lookup_alter. subst memory.
      repeat case_decide; simplify_eq; try done.
      destruct (heap w !! chain_memory chain) as [h|]; [|done].
      cbn [fmap option_fmap option_map]. f_equal.
      change (row :: rows) with ([row] ++ rows).
      by rewrite dialogue_app, (assoc_L (++)).
    + rewrite answer_prompts_app, Hp1. cbn [app prompts_follow].
      split; [by exists nq, ctx|]. by rewrite Hlookup in Hp2.
Qed.

(** One iteration of the outer loop: a new memory object, then the
    inner loop on it. *)
Lemma benchmark_llm_summary (retriever : Retriever) (qs : list string)
    (results : list Row) (llm_name : string) (w : World) :
  let run := benchmark_llm retriever qs results llm_name w in
  ∃ evs n,
    trace run.2 = trace w ++ evs ∧ ticks run.2 = ticks w + n ∧ fs run.2 = fs w
    ∧ writes evs = []
    ∧ match run.1 with
      | Ok results' =>
          Forall (λ ev, ¬ failed_call ev) evs
          ∧ ∃ cell,
              results' = results ++ cell.1
              ∧ answer_prompts evs = cell.2
              ∧ model_block qs llm_name cell
              ∧ heap run.2 = heap w ++ [dialogue cell.1]
      | Raise e => aborted e evs
      end.
Proof.
  intros run. subst run.
  unfold benchmark_llm, build_chain, ConversationBufferMemory, print, emit.
  rewrite !bind_unfold. cbn [trace ticks fs heap ret]. unfold ret.
  set (header := Print _).
  set (chain := mkChain _ _ _ _).
  set (w1 := mkWorld _ _ _ _).
  assert (Hmem : chain_memory chain < length (heap w1)).
  { subst chain w1. cbn [chain_memory heap]. rewrite length_app. simpl. lia. }
  destruct (inner_loop_summary chain llm_name qs results w1 Hmem)
    as (evs & n & Htrace & Hticks & Hfs & Hwrites & Hr).
  assert (Hempty : default [] (heap w1 !! chain_memory chain) = []).
  { subst chain w1. cbn [chain_memory heap].
    by rewrite lookup_app_r, Nat.sub_diag by lia. }
  rewrite Hempty in Hr.
  exists (header :: evs), n. rewrite Htrace, Hticks, Hfs. subst w1.
  cbn [trace ticks fs heap] in *. rewrite <- (assoc_L (++)).
  split; [done|]. split; [done|]. split; [done|].
  split.
  { change (header :: evs) with ([header] ++ evs).
    by rewrite writes_app, Hwrites. }
  destruct (for_each (benchmark_question chain llm_name) qs results _).1
    as [results'|e].
  - destruct Hr as (Hok & rows & -> & Hcells & Htimed & Hheap & Hp).
    split; [constructor; [by intros []|done]|].
    exists (rows, answer_prompts evs). cbn [fst snd].
    split; [done|]. split; [done|]. split; [by repeat split|].
    rewrite Hheap. subst chain. cbn [chain_memory].
    apply list_eq. intros i. rewrite list_lookup_alter.
    case_decide; simplify_eq.
    + by rewrite !lookup_app_r, Nat.sub_diag by lia.
    + destruct (decide (i < length (heap w))).
      * by rewrite !lookup_app_l by done.
      * rewrite !lookup_app_r by lia.
        by rewrite !lookup_ge_None_2 by (simpl; lia).
  - destruct Hr as (before & site & llm & t & prompt & -> & Hsite & Hcall & Hb & Hw).
    exists (header :: before), site, llm, t, prompt.
    split; [done|]. split; [done|]. split; [done|].
    split; [constructor; [by intros []|done]|].
    change (header :: before ++ ?x) with ([header] ++ before ++ x).
    by rewrite writes_app, Hw.
Qed.

(** The outer loop. *)
Lemma outer_loop_summary (retriever : Retriever) (qs llms : list string) :
  ∀ (results : list Row) (w : World),
    let run := for_each (benchmark_llm retriever qs) llms results w in
    ∃ evs n,
      trace run.2 = trace w ++ evs ∧ ticks run.2 = ticks w + n ∧ fs run.2 = fs w
      ∧ writes evs = []
      ∧ match run.1 with
        | Ok results' =>
            Forall (λ ev, ¬ failed_call ev) evs
            ∧ ∃ cells,
                results' = results ++ concat cells.*1
                ∧ answer_prompts evs = concat cells.*2
                ∧ Forall2 (model_block qs) llms cells
                ∧ heap run.2 = heap w ++ (dialogue <$> cells.*1)
        | Raise e => aborted e evs
        end.
Proof.
  induction llms as [|llm_name llms IH]; intros results w run; subst run.
  - exists [], 0. cbn. rewrite !app_nil_r.
    repeat split; try done; try lia.
    exists []. cbn. rewrite !app_nil_r. by repeat split.
  - cbn [for_each]. rewrite bind_unfold.
    destruct (benchmark_llm_summary retriever qs results llm_name w)
      as (evs1 & n1 & Htrace1 & Hticks1 & Hfs1 & Hw1 & Hr1).
    destruct (benchmark_llm retriever qs results llm_name w) as [[results1|e] w1];
      cbn [fst snd] in *.
    2:{ exists evs1, n1. by repeat split. }
    destruct Hr1 as (Hok1 & cell & -> & Hp1 & Hblock & Hheap1).
    destruct (IH (results ++ cell.1) w1)
      as (evs2 & n2 & Htrace2 & Hticks2 & Hfs2 & Hw2 & Hr2).
    exists (evs1 ++ evs2), (n1 + n2).
    rewrite Htrace2, Htrace1, Hticks2, Hticks1, Hfs2, Hfs1, writes_app, Hw1, Hw2.
    rewrite (assoc_L (++)).
    split; [done|]. split; [lia|]. split; [done|]. split; [done|].
    destruct (for_each (benchmark_llm retriever qs) llms (results ++ cell.1) w1)
      as [[results2|e] w2]; cbn [fst snd] in *.
    2:{ by apply aborted_prepend. }
    destruct Hr2 as (Hok2 & cells & -> & Hp2 & Hblocks & Hheap2).
    split; [by apply Forall_app|].
    exists (cell :: cells). cbn [fmap list_fmap concat].
    rewrite <- (assoc_L (++)). split; [done|].
    split; [by rewrite answer_prompts_app, Hp1, Hp2|].
    split; [by constructor|].
    rewrite Hheap2, Hheap1. by rewrite <- (assoc_L (++)).
Qed.

(** The whole sweep: either every call to the model succeeded and the
    table was written once, after the last cell, or the first failed call
    is the last thing the script did. *)
Lemma benchmark_summary (retriever : Retriever) (llms qs : list string) (w : World) :
  let run := benchmark retriever llms qs w in
  ∃ evs,
    trace run.2 = trace w ++ evs
    ∧ match run.1 with
      | Ok _ =>
          ∃ swept cells,
            evs = swept ++ [ToExcel output_file (concat cells.*1);
                            Print (Py.nl +:+ "All tests completed. Results saved to: "
                                   +:+ output_file)]
            ∧ Forall (λ ev, ¬ failed_call ev) swept
            ∧ writes swept = []
            ∧ answer_prompts swept = concat cells.*2
            ∧ Forall2 (model_block qs) llms cells
            ∧ heap run.2 = heap w ++ (dialogue <$> cells.*1)
      | Raise e => aborted e evs
      end.
Proof.
  intros run. subst run. unfold benchmark. rewrite bind_unfold.
  destruct (outer_loop_summary retriever qs llms [] w)
    as (evs & n & Htrace & _ & _ & Hw & Hr).
  destruct (for_each (benchmark_llm retriever qs) llms [] w) as [[results|e] w1];
    cbn [fst snd] in *.
  2:{ by exists evs. }
  destruct Hr as (Hok & cells & -> & Hp & Hblocks & Hheap).
  unfold bind, print, emit. cbn [trace ticks fs heap fst snd app].
  eexists. split.
  { rewrite Htrace, <- !(assoc_L (++)). reflexivity. }
  exists evs, cells. by repeat split.
Qed.

(** *** Lists of per-model blocks *)

Lemma listing_length (llms qs : list string) :
  length (llms ≫= λ llm_name, (λ q, (llm_name, q)) <$> qs)
  = length llms * length qs.
Proof.
  induction llms as [|llm_name llms IH]; [done|].
  rewrite bind_cons, length_app, length_fmap, IH. simpl. lia.
Qed.

Lemma blocks_listing (qs llms : list string) cells :
  Forall2 (model_block qs) llms cells →
  (λ row, (LLM row, Fraga row)) <$> concat cells.*1
  = llms ≫= λ llm_name, (λ q, (llm_name, q)) <$> qs.
Proof.
  induction 1 as [|llm_name cell llms cells (Hcell & _ & _) _ IH]; [done|].
  cbn [fmap list_fmap concat]. by rewrite fmap_app, bind_cons, Hcell, IH.
Qed.


Lemma prompts_follow_lookup model template rows :
  ∀ history prompts,
    prompts_follow model template history rows prompts →
    length prompts = length rows
    ∧ ∀ i, i < length rows →
        ∃ new_question context,
          prompts !! i
          = Some (model,
                  template (get_chat_history (history ++ dialogue (take i rows)))
                           new_question context).
Proof.
  induction rows as [|row rows IH]; intros history [|prompt prompts] Hp;
    try done.
  - split; [done|]. simpl. lia.
  - destruct Hp as ((nq & ctx & ->) & Hrest).
    destruct (IH _ _ Hrest) as (Hlen & Hlookup).
    split; [simpl; by rewrite Hlen|].
    intros [|i] Hi.
    + exists nq, ctx. by rewrite take_0, app_nil_r.
    + destruct (Hlookup i) as (nq' & ctx' & Hi'); [simpl in Hi; lia|].
      exists nq', ctx'.
      change ((?p :: prompts) !! S i) with (prompts !! i). rewrite Hi'.
      change (take (S i) (row :: rows)) with (row :: take i rows).
      change (row :: take i rows) with ([row] ++ take i rows).
      by rewrite dialogue_app, (assoc_L (++)).
Qed.

Lemma drop_concat_uniform {A} (size : nat) (blocks : list (list A)) :
  Forall (λ block, length block = size) blocks →
  ∀ j block, blocks !! j = Some block →
    ∃ rest, drop (j * size) (concat blocks) = block ++ rest.
Proof.
  induction 1 as [|first blocks Hfirst _ IH]; intros [|j] block Hj; try done.
  - simplify_eq/=. by eexists.
  - cbn [lookup list_lookup] in Hj. destruct (IH j block Hj) as (rest & Hrest).
    exists rest. cbn [concat]. rewrite <- Hrest.
    replace (S j * size) with (length first + j * size) by (rewrite Hfirst; lia).
    by rewrite drop_app_add.
Qed.



Lemma blocks_uniform (qs llms : list string) cells :
  Forall2 (model_block qs) llms cells →
  Forall (λ block, length block = length qs) cells.*1
  ∧ Forall (λ block, length block = length qs) cells.*2.
Proof.
  induction 1 as [|llm_name cell llms cells (Hcell & _ & Hp) _ [IH1 IH2]];
    [by split|].
  assert (Hlen : length cell.1 = length qs).
  { by rewrite <- (length_fmap (λ row, (LLM row, Fraga row))), Hcell, length_fmap. }
  destruct (prompts_follow_lookup _ _ _ _ _ Hp) as [Hlenp _].
  cbn [fmap list_fmap]. split; constructor; try done. congruence.
Qed.

Lemma writes_swept swept rows line :
  writes swept = [] →
  writes (swept ++ [ToExcel output_file rows; Print line]) = [(output_file, rows)].
Proof. intros Hw. by rewrite writes_app, Hw. Qed.

(** C6, as the code has it.  The sweep has no handler around the call
    of a chain.  Either no call to the model fails, and the table of all
    M×Q cells is written once at the end; or the first call that fails is
    the last thing the script does: the error leaves both loops, no later
    cell is run and no table is written, not even for the cells that were
    completed. *)
Theorem sweep_stops_at_failed_call (retriever : Retriever)
    (llms qs : list string) (w : World) :
  let run := benchmark retriever llms qs w in
  ∃ evs,
    trace run.2 = trace w ++ evs
    ∧ match run.1 with
      | Ok _ =>
          Forall (λ ev, ¬ failed_call ev) evs
          ∧ ∃ rows, writes evs = [(output_file, rows)]
                    ∧ length rows = length llms * length qs
      | Raise e =>
          ∃ before site llm t prompt,
            evs = before ++ [site (model llm) prompt (Raise e)]
            ∧ (site = CondenseCall ∨ site = AnswerCall)
            ∧ ChatOllama_invoke t (model llm) (temperature llm) prompt = Raise e
            ∧ Forall (λ ev, ¬ failed_call ev) before
            ∧ writes evs = []
      end.
Proof.
  intros run. subst run.
  destruct (benchmark_summary retriever llms qs w) as (evs & Htrace & Hr).
  exists evs. split; [done|].
  destruct (benchmark retriever llms qs w).1 as [[]|e]; [|exact Hr].
  destruct Hr as (swept & cells & -> & Hok & Hw & _ & Hblocks & _). split.
  - apply Forall_app. split; [done|]. repeat constructor; by intros [].
  - exists (concat cells.*1). split; [by apply writes_swept|].
    rewrite <- (length_fmap (λ row, (LLM row, Fraga row))).
    by rewrite (blocks_listing qs llms), listing_length.
Qed.


(** C10.  In a sweep that runs to its end, every model gets a memory
    object of its own, created empty when its chain is built, and the
    questions of that model share it: the answering prompt of the i-th
    question of the j-th model carries, in its chat-history slot, the
    rendering of the turns of questions 1..i-1 of that same model and of
    nothing else, so the first question of every model starts from an
    empty history.  At the end the j-th new memory object holds the turns
    of the j-th model. *)
Theorem sweep_memory_per_model (retriever : Retriever)
    (llms qs : list string) (w : World) :
  (benchmark retriever llms qs w).1 = Ok () →
  let w' := (benchmark retriever llms qs w).2 in
  let Q := length qs in
  ∃ swept rows line memories,
    trace w' = trace w ++ swept ++ [ToExcel output_file rows; Print line]
    ∧ heap w' = heap w ++ memories
    ∧ length memories = length llms
    ∧ ∀ j llm_name, llms !! j = Some llm_name →
        memories !! j = Some (dialogue (take Q (drop (j * Q) rows)))
        ∧ ∀ i, i < Q →
            ∃ new_question context,
              answer_prompts swept !! (j * Q + i)
              = Some (llm_name,
                      benchmark_prompt
                        (get_chat_history
                           (dialogue (take i (drop (j * Q) rows))))
                        new_question context).
Proof.
  intros Hrun w' Q. subst w'.
  destruct (benchmark_summary retriever llms qs w) as (evs & Htrace & Hr).
  rewrite Hrun in Hr.
  destruct Hr as (swept & cells & -> & _ & _ & Hp & Hblocks & Hheap).
  exists swept, (concat cells.*1). eexists. exists (dialogue <$> cells.*1).
  split; [exact Htrace|]. split; [done|].
  split; [by rewrite !length_fmap, <- (Forall2_length _ _ _ Hblocks)|].
  intros j llm_name Hj.
  destruct (Forall2_lookup_l _ _ _ _ _ Hblocks Hj) as (cell & Hcell & Hblock).
  destruct (blocks_uniform qs llms cells Hblocks) as [Hrows Hprompts].
  destruct Hblock as (Hlisting & _ & Hfollow).
  destruct (prompts_follow_lookup _ _ _ _ _ Hfollow) as [Hlenp Hlookup].
  assert (Hlen : length cell.1 = Q).
  { by rewrite <- (length_fmap (λ row, (LLM row, Fraga row))), Hlisting,
               length_fmap. }
  destruct (drop_concat_uniform Q cells.*1 Hrows j cell.1) as (rest & Hdrop).
  { by rewrite list_lookup_fmap, Hcell. }
  destruct (drop_concat_uniform Q cells.*2 Hprompts j cell.2) as (rest' & Hdrop').
  { by rewrite list_lookup_fmap, Hcell. }
  split.
  - rewrite !list_lookup_fmap, Hcell. cbn [fmap option_fmap option_map].
    by rewrite Hdrop, take_app_length'.
  - intros i Hi. destruct (Hlookup i) as (nq & ctx & Hi'); [lia|].
    exists nq, ctx. rewrite Hp, <- lookup_drop, Hdrop'.
    rewrite lookup_app_l by lia. rewrite Hi', app_nil_l.
    by rewrite Hdrop, take_app_le by lia.
Qed.

End Benchmark.

(** * The scripts on the sample corpus *)

Section Runs.

Example context_of_sample :
  context_formatting sample_chunks
  = "[doc1]=rainbows need rain and sun" +:+ Py.nl +:+ Py.nl
    +:+ "[doc2]=the loonie" +:+ Py.nl +:+ Py.nl.
Proof. reflexivity. Qed.

Example sources_of_sample :
  source_formatting sample_chunks
  = "[doc1]=docs/b.pdf" +:+ Py.nl +:+ Py.nl +:+ "[doc2]=unknown"
  ∧ formatted_sources sample_chunks = sample_references.
Proof. split; reflexivity. Qed.

Example ingestion_of_sample :
  (@chunking healthy "docs" empty_world).1
  = Ok [sample_chunk "docs/a.pdf" "text of docs/a.pdf";
        sample_chunk "docs/b.pdf" "text of docs/b.pdf"].
Proof. vm_compute. reflexivity. Qed.

Example store_is_built_when_absent :
  trace (@init_or_load_vectorstore healthy "chroma_db" sample_chunks "e5"
           empty_world).2
  = [Print "Creating new vector store";
     ChromaFromDocuments sample_chunks "rag_chat" "e5" "chroma_db"].
Proof. vm_compute. reflexivity. Qed.

Example store_is_reopened_when_present :
  trace (@init_or_load_vectorstore healthy "chroma_db" sample_chunks "e5"
           (mkWorld [] 0 {[ "chroma_db" := Directory ]} [])).2
  = [Print "Loading vector store"; ChromaOpen "rag_chat" "e5" "chroma_db"].
Proof. vm_compute. reflexivity. Qed.

Example two_turns :
  (@conversation healthy sample_qa ["q1"; "q2"] [] session_world).1
  = Ok ([sample_references; sample_references],
        entries_of [("q1", "answer 0"); ("q2", "answer 2")])
  ∧ heap (@conversation healthy sample_qa ["q1"; "q2"] [] session_world).2
    = [[HumanMessage "q1"; AIMessage "answer 0";
        HumanMessage "q2"; AIMessage "answer 2"]].
Proof. split; vm_compute; reflexivity. Qed.

(** C9 on the empty collection. *)
Lemma complete_rag_empty_retrieval_run :
  @complete_rag empty_collection (@as_retriever empty_collection [])
    "mistral:instruct" "anything" empty_world
  = (Ok ("", "answer 0"),
     mkWorld [Print "Retrieving"; Retrieve "anything" [];
              Print "Generating";
              AnswerCall "mistral:instruct" (rag_prompt "anything" "") (Ok "answer 0")]
             1 ∅ []).
Proof.
  exact (proj2 (proj2 (@complete_rag_empty_retrieval empty_collection
                         (@as_retriever empty_collection [])
                         "mistral:instruct" "anything" empty_world eq_refl))).
Defined.

(** C2 on a conversation of two turns. *)
Lemma citations_renumbered_each_turn_run :
  ∃ evs,
    trace (@conversation healthy sample_qa ["q1"; "q2"] [] session_world).2
    = [] ++ evs
    ∧ length (retrievals evs) = 2
    ∧ [sample_references; sample_references]
      = (λ retrieved,
           Py.join (Py.nl +:+ Py.nl)
             (imap (λ i chunk, "[source" +:+ Py.str (i + 1) +:+ "] "
                               +:+ default "unknown" (metadata chunk !! "source"))
                   retrieved))
        <$> retrievals evs.
Proof.
  apply (@citations_renumbered_each_turn healthy sample_qa ["q1"; "q2"] []
           session_world [sample_references; sample_references]
           (entries_of [("q1", "answer 0"); ("q2", "answer 2")])).
  vm_compute. reflexivity.
Defined.



(** C10 on the same sweep. *)
Lemma sweep_memory_per_model_run :
  let w' := (@benchmark healthy (@mkRetriever healthy sample_chunks 4)
               ["m1"; "m2"] ["q1"; "q2"] empty_world).2 in
  ∃ swept rows line memories,
    trace w' = trace empty_world ++ swept
               ++ [ToExcel output_file rows; Print line]
    ∧ heap w' = heap empty_world ++ memories
    ∧ length memories = 2
    ∧ ∀ j llm_name, ["m1"; "m2"] !! j = Some llm_name →
        memories !! j = Some (dialogue (take 2 (drop (j * 2) rows)))
        ∧ ∀ i, i < 2 →
            ∃ new_question context,
              answer_prompts swept !! (j * 2 + i)
              = Some (llm_name,
                      benchmark_prompt
                        (@get_chat_history healthy
                           (dialogue (take i (drop (j * 2) rows))))
                        new_question context).
Proof.
  apply (@sweep_memory_per_model healthy (@mkRetriever healthy sample_chunks 4)
           ["m1"; "m2"] ["q1"; "q2"] empty_world).
  vm_compute. reflexivity.
Defined.

(** C5 as the spec has it fails: with one unreadable PDF file next to a
    readable one, neither ingestion function returns any chunk. *)
Lemma ingestion_aborts_on_unreadable_document :
  @PyPDFLoader_load one_unreadable "docs/a.pdf" = Raise "EOF marker not found"
  ∧ is_Ok (@PyPDFLoader_load one_unreadable "docs/b.pdf")
  ∧ (@chunking one_unreadable "docs" empty_world).1 = Raise "EOF marker not found"
  ∧ (@prepare_documents one_unreadable "docs" empty_world).1
    = Raise "EOF marker not found".
Proof. repeat split; vm_compute; reflexivity. Qed.


(** C6 as the spec has it fails: when the model fails on the second
    question of the first of two models, the sweep raises, the second
    model is never called and no table is written. *)
Lemma sweep_aborts_on_failed_call :
  let run := @benchmark one_failed_call
               (@mkRetriever one_failed_call sample_chunks 4)
               ["m1"; "m2"] ["q1"; "q2"] empty_world in
  Exists failed_call (trace run.2)
  ∧ run.1 = Raise "connection refused"
  ∧ (answer_prompts (trace run.2)).*1 = ["m1"; "m1"]
  ∧ writes (trace run.2) = [].
Proof.
  repeat split; try (vm_compute; reflexivity).
  apply (bool_decide_unpack _). vm_compute. exact I.
Qed.

End Runs.

(** * Further properties of the scripts *)

(** ** Shape of the assembled texts *)

Section Texts.

Lemma count_app c s t : Py.count c (s +:+ t) = Py.count c s + Py.count c t.
Proof.
  induction s as [|a s IH]; [done|].
  rewrite str_app_cons. cbn [Py.count]. rewrite IH. lia.
Qed.




Lemma count_flattened (content : string) :
  Py.count "010" (Py.replace "010" " " content) = 0.
Proof.
  induction content as [|a s IH]; [done|]. cbn [Py.replace].
  destruct (decide (a = "010"%char)) as [->|Ha].
  - by rewrite count_app, IH.
  - cbn [Py.count]. rewrite IH. by rewrite decide_False.
Qed.

(** X1.  The flattening of [context_formatting] leaves no newline in a chunk's
    content, keeps its length, and changes nothing when applied again. *)
Theorem flattening_removes_newlines (content : string) :
  Py.count "010" (Py.replace "010" " " content) = 0
  ∧ String.length (Py.replace "010" " " content) = String.length content
  ∧ Py.replace "010" " " (Py.replace "010" " " content)
    = Py.replace "010" " " content.
Proof.
  split; [apply count_flattened|]. split.
  - induction content as [|a s IH]; [done|]. cbn [Py.replace].
    destruct (decide (a = "010"%char));
      rewrite ?str_app_cons, ?str_app_nil_l; cbn [String.length]; by rewrite IH.
  - induction content as [|a s IH]; [done|]. cbn [Py.replace].
    destruct (decide (a = "010"%char)) as [->|Ha].
    + rewrite str_app_cons, str_app_nil_l. cbn [Py.replace].
      rewrite decide_False by done. by rewrite IH.
    + cbn [Py.replace]. rewrite decide_False by done. by rewrite IH.
Qed.


Lemma rstrip_app s t :
  Py.rstrip (s +:+ t)
  = match Py.rstrip t with "" => Py.rstrip s | r => s +:+ r end.
Proof.
  induction s as [|a s IH].
  - rewrite str_app_nil_l. by destruct (Py.rstrip t).
  - rewrite str_app_cons. cbn [Py.rstrip]. rewrite IH.
    destruct (Py.rstrip t) as [|b r]; [done|].
    rewrite str_app_cons. by destruct s.
Qed.

Lemma concat_terminated sep bs :
  bs ≠ [] → Py.concat ((λ b, b +:+ sep) <$> bs) = Py.join sep bs +:+ sep.
Proof.
  induction bs as [|b bs IH]; [done|]. intros _.
  cbn [fmap list_fmap]. rewrite concat_cons.
  destruct bs as [|b' bs]; [by rewrite str_app_nil_r|].
  rewrite IH by done. cbn [Py.join]. by rewrite !str_app_assoc.
Qed.

Lemma join_snoc sep bs b :
  Py.join sep (bs ++ [b]) = Py.concat ((λ b, b +:+ sep) <$> bs) +:+ b.
Proof.
  induction bs as [|b0 bs IH]; [done|].
  cbn [fmap list_fmap app]. rewrite concat_cons.
  destruct bs as [|b1 bs].
  { cbn [fmap list_fmap app Py.join]. change (Py.concat []) with "".
    by rewrite str_app_nil_r, !str_app_assoc. }
  change (Py.join sep (b0 :: (b1 :: bs) ++ [b]))
    with (b0 +:+ sep +:+ Py.join sep ((b1 :: bs) ++ [b])).
  by rewrite IH, !str_app_assoc.
Qed.

(** The text [source_formatting] accumulates starts with "[", so [strip]
    removes nothing at its front; at its end are the blank line after the
    last entry and, before it, the end of the last source. *)
Lemma source_formatting_rstrip (retrieved : list Document) :
  source_formatting retrieved
  = Py.rstrip
      (Py.join (Py.nl +:+ Py.nl)
         (imap (λ i chunk, "[doc" +:+ Py.str (i + 1) +:+ "]="
                             +:+ metadata_source chunk) retrieved)).
Proof.
  set (entries := imap _ retrieved).
  unfold source_formatting. rewrite enumerate_offset.
  rewrite (accumulate_enumerate
             (λ index document, "[doc" +:+ Py.str (index + 1) +:+ "]="
                +:+ metadata_source document +:+ Py.nl +:+ Py.nl)).
  rewrite str_app_nil_l.
  set (blocks := imap _ retrieved).
  replace blocks with ((λ b, b +:+ (Py.nl +:+ Py.nl)) <$> entries).
  2:{ subst blocks entries. rewrite fmap_imap. apply imap_ext.
      intros i chunk _. cbn [compose]. by rewrite !str_app_assoc. }
  clear blocks.
  destruct retrieved as [|first rest]; [done|].
  rewrite concat_terminated by done. unfold Py.strip.
  assert (∃ tail, Py.join (Py.nl +:+ Py.nl) entries +:+ Py.nl +:+ Py.nl
                  = String "[" tail) as [tail Htail].
  { subst entries. rewrite imap_cons.
    destruct (imap _ rest); cbn [Py.join]; rewrite !str_app_assoc;
      rewrite str_app_cons; by eexists. }
  rewrite Htail. cbn [Py.lstrip Py.isspace]. rewrite <- Htail.
  by rewrite rstrip_app.
Qed.

Lemma plain_ending_rstrip (s : string) :
  plain_ending s = true → Py.rstrip s = s.
Proof.
  unfold plain_ending. induction s as [|c s IH]; [done|].
  cbn [last_character Py.rstrip]. destruct s as [|c' s].
  - intros [_ Hc%negb_true_iff]%andb_true_iff. cbn [Py.rstrip]. by rewrite Hc.
  - intros Hs. rewrite (IH Hs). done.
Qed.

(** X3.  When the source of the last retrieved chunk is empty or ends in an
    ASCII character that is not white space, [source_formatting] returns
    exactly the "[docN]=source" entries joined by blank lines: [strip]
    takes away the blank line after the last entry, nothing at the front
    and nothing between entries, whatever the other sources are. *)
Theorem source_formatting_joined (front : list Document) (last : Document) :
  plain_ending (metadata_source last) = true →
  source_formatting (front ++ [last])
  = Py.join (Py.nl +:+ Py.nl)
      (imap (λ i chunk, "[doc" +:+ Py.str (i + 1) +:+ "]="
                          +:+ metadata_source chunk) (front ++ [last])).
Proof.
  intros Hclean%plain_ending_rstrip. rewrite source_formatting_rstrip.
  rewrite imap_app. cbn [imap]. rewrite join_snoc.
  set (P := Py.concat _). set (n := Py.str _).
  replace (P +:+ "[doc" +:+ n +:+ "]=" +:+ metadata_source last)
    with ((P +:+ "[doc" +:+ n +:+ "]=") +:+ metadata_source last)
    by (by rewrite !str_app_assoc).
  rewrite rstrip_app, Hclean.
  destruct (metadata_source last) as [|a src]; [|done].
  replace (P +:+ "[doc" +:+ n +:+ "]=") with ((P +:+ "[doc" +:+ n) +:+ "]=")
    by (by rewrite !str_app_assoc).
  by rewrite rstrip_app, str_app_nil_r.
Qed.

End Texts.

(** ** The single-turn handler and the start of a session *)

Section Handlers.
Context `{Externals}.

(** X4.  Whatever is retrieved, [complete_rag] queries the retriever once with
    the question, calls the model once, at temperature 0, on the prompt
    holding the question and the context of exactly the retrieved chunks,
    and returns the sources of those same chunks with the model's reply.
    If the model raises, so does the handler, and no sources are returned.
    The file system and the memory objects are left as they were. *)
Theorem complete_rag_outcome (retriever : Retriever) (use_llm question : string)
    (w : World) :
  let docs := similarity_search (store retriever) (search_k retriever) question in
  let prompt := rag_prompt question (context_formatting docs) in
  let outcome := ChatOllama_invoke (ticks w) use_llm 0 prompt in
  complete_rag retriever use_llm question w
  = (result_map (λ output, (source_formatting docs, output)) outcome,
     mkWorld (trace w ++ [Print "Retrieving"; Retrieve question docs;
                          Print "Generating"; AnswerCall use_llm prompt outcome])
             (S (ticks w)) (fs w) (heap w)).
Proof.
  intros docs prompt outcome.
  unfold complete_rag, retrieve, generate, Retriever_invoke, llm_invoke,
    print, emit, bind, ret.
  cbn [trace ticks fs heap model temperature]. fold docs. fold prompt. fold outcome.
  rewrite <- !(assoc_L (++)). cbn [app].
  by destruct outcome.
Qed.

Lemma extend_loaded_pure load files : ∀ docs w w',
  (extend_loaded load files docs w).1 = (extend_loaded load files docs w').1.
Proof.
  induction files as [|file files IH]; intros docs w w'; [done|].
  unfold extend_loaded in *. cbn [for_each]. rewrite !bind_unfold.
  unfold bind, lift, ret. destruct (load file); [apply IH|done].
Qed.

Lemma prepare_documents_pure (folder : string) (w w' : World) :
  prepare_documents folder w' = ((prepare_documents folder w).1, w').
Proof.
  unfold prepare_documents. rewrite !bind_unfold.
  pose proof (extend_loaded_world PyPDFLoader_load (Path_glob folder "*.pdf") [] w) as Hw1.
  pose proof (extend_loaded_world PyPDFLoader_load (Path_glob folder "*.pdf") [] w') as Hw1'.
  pose proof (extend_loaded_pure PyPDFLoader_load (Path_glob folder "*.pdf") [] w w') as Hp1.
  destruct (extend_loaded PyPDFLoader_load _ [] w) as [r1 w1],
           (extend_loaded PyPDFLoader_load _ [] w') as [r1' w1'].
  cbn [fst snd] in *. subst. destruct r1' as [docs1|e]; [|done].
  rewrite !bind_unfold.
  pose proof (extend_loaded_world UnstructuredWordDocumentLoader_load
                (Path_glob folder "*.docx") docs1 w) as Hw2.
  pose proof (extend_loaded_world UnstructuredWordDocumentLoader_load
                (Path_glob folder "*.docx") docs1 w') as Hw2'.
  pose proof (extend_loaded_pure UnstructuredWordDocumentLoader_load
                (Path_glob folder "*.docx") docs1 w w') as Hp2.
  destruct (extend_loaded UnstructuredWordDocumentLoader_load _ docs1 w) as [r2 w2],
           (extend_loaded UnstructuredWordDocumentLoader_load _ docs1 w') as [r2' w2'].
  cbn [fst snd] in *. subst. destruct r2' as [docs2|e]; [|done].
  unfold bind, lift. by destruct (DirectoryLoader_load folder "**/*.txt").
Qed.

(** X5.  Starting a chat session prepares the documents before it looks at the
    store: if a loader raises, start-up stops there, without any call to
    Chroma, also when the store already exists on disk.  Otherwise the store
    is reopened or built, and the chain that is returned answers with model
    llama3 at temperature 0.1, retrieves 4 chunks per query and owns a
    memory object that did not exist before and is empty. *)
Theorem session_startup (docs_path db_path : string) (w : World) :
  let launched :=
    mkWorld (trace w ++ [Print "Launching session chat with memory"])
            (ticks w) (fs w) (heap w) in
  match (prepare_documents docs_path w).1 with
  | Raise e => session_chain docs_path db_path w = (Raise e, launched)
  | Ok docs =>
      let opened :=
        init_or_load_vectorstore db_path docs "intfloat/e5-base-v2" launched in
      match opened.1 with
      | Raise e => session_chain docs_path db_path w = (Raise e, opened.2)
      | Ok vectorstore =>
          session_chain docs_path db_path w
          = (Ok (mkChain (mkChatOllama "llama3" (1 # 10))
                         (mkRetriever vectorstore 4)
                         (length (heap w)) conversational_prompt),
             mkWorld (trace opened.2) (ticks opened.2) (fs opened.2)
                     (heap w ++ [[]]))
      end
  end.
Proof.
  intros launched. unfold session_chain.
  rewrite bind_unfold.
  change (print "Launching session chat with memory" w) with (Ok (), launched).
  cbv beta iota.
  rewrite bind_unfold, (prepare_documents_pure docs_path w launched).
  destruct (prepare_documents docs_path w).1 as [docs|e]; [|done].
  cbv zeta. rewrite bind_unfold.
  assert (Hheap : heap (init_or_load_vectorstore db_path docs
                          "intfloat/e5-base-v2" launched).2 = heap w).
  { unfold init_or_load_vectorstore, path_exists, bind, print, emit,
      Chroma_call, Chroma_from_documents_call.
    destruct (bool_decide _); cbn [trace ticks fs heap].
    - by destruct (Chroma _ _ _ _).
    - by destruct (Chroma_from_documents _ _ _ _ _). }
  destruct (init_or_load_vectorstore db_path docs "intfloat/e5-base-v2" launched)
    as [[vectorstore|e] w1]; cbn [fst snd] in *; [|done].
  unfold bind, ConversationBufferMemory, ret, build_conversational_chain,
    as_retriever. cbn [store]. by rewrite Hheap.
Qed.

End Handlers.

(** ** A conversation and the memory of its chain *)

Section Conversation.
Context `{Externals}.

Lemma messages_of_snoc turns question reply :
  messages_of (turns ++ [(question, reply)])
  = messages_of turns ++ [HumanMessage question; AIMessage reply].
Proof. unfold messages_of. by rewrite bind_app. Qed.

(** X6.  Over a conversation the Gradio history grows by one turn per submitted
    question, in the order of submission, and the memory of the chain keeps
    step with it: when memory and history held the same turns at the start,
    they hold the same turns at the end. *)
Theorem history_and_memory_in_step (qa : Chain) (inputs : list string)
    (turns : list (string * string)) (w : World)
    (boxes : list string) (state' : list ChatEntry) :
  (conversation qa inputs (entries_of turns) w).1 = Ok (boxes, state') →
  ∃ replies,
    length replies = length inputs
    ∧ state' = entries_of (turns ++ zip inputs replies)
    ∧ (heap w !! chain_memory qa = Some (messages_of turns) →
       heap (conversation qa inputs (entries_of turns) w).2 !! chain_memory qa
       = Some (messages_of (turns ++ zip inputs replies))).
Proof.
  revert turns w boxes state'.
  induction inputs as [|user_input inputs IH]; intros turns w boxes state' Hrun.
  - cbn in Hrun. simplify_eq. exists []. cbn. by rewrite app_nil_r.
  - cbn [conversation] in *. rewrite bind_unfold in *.
    rewrite chat_with_memory_unfold in *.
    destruct (Chain_call_summary qa user_input w)
      as (evs & n & _ & _ & _ & _ & Hr).
    destruct (Chain_call qa user_input w) as [[response|e] w1]; [|done].
    cbn [fst snd] in *. destruct Hr as (_ & Hheap & _).
    rewrite <- entries_of_snoc, bind_unfold in *.
    pose proof (IH (turns ++ [(user_input, answer response)]) w1) as IH1.
    destruct (conversation qa inputs _ w1) as [[[boxes1 state1]|e] w2]; [|done].
    unfold ret in *. cbn [fst snd] in *. simplify_eq.
    destruct (IH1 boxes1 state' eq_refl) as (replies & Hlen & -> & Hmem).
    exists (answer response :: replies). split; [simpl; by rewrite Hlen|].
    cbn [zip zip_with]. rewrite <- !(assoc_L (++)) in *. split; [done|].
    intros Hstart. apply Hmem.
    rewrite Hheap, list_lookup_alter_eq, Hstart. cbn [fmap option_fmap option_map].
    by rewrite messages_of_snoc.
Qed.

End Conversation.

(** ** The sweep: what the table records *)

Section Table.
Context `{Externals}.

Lemma replies_app evs1 evs2 : replies (evs1 ++ evs2) = replies evs1 ++ replies evs2.
Proof. apply omap_app. Qed.

Lemma Chain_call_reply (chain : Chain) (question : string) (w : World) response :
  (Chain_call chain question w).1 = Ok response →
  ∃ evs,
    trace (Chain_call chain question w).2 = trace w ++ evs
    ∧ replies evs = [answer response]
    ∧ length (retrievals evs) = 1.
Proof.
  destruct (Chain_call chain question w) as [r w'] eqn:Hcall. cbn [fst snd].
  intros ->.
  unfold Chain_call, load_memory, Retriever_invoke, llm_invoke, save_context,
    emit, bind, ret in Hcall.
  destruct (decide (_ = "")) as [Hs|Hs].
  - cbn [trace ticks fs heap] in Hcall.
    destruct (ChatOllama_invoke (ticks w) _ _ _) as [out|e] eqn:Hout;
      simplify_eq; cbn [trace answer].
    eexists. rewrite <- (assoc_L (++)). by split.
  - destruct (ChatOllama_invoke (ticks w) _ _ _) as [nq|ec] eqn:Hc; [|done].
    cbn [trace ticks fs heap] in Hcall.
    destruct (ChatOllama_invoke (S (ticks w)) _ _ _) as [out|e] eqn:Hout;
      simplify_eq; cbn [trace answer].
    eexists. rewrite <- !(assoc_L (++)). by split.
Qed.

Lemma benchmark_question_recorded (chain : Chain) (llm_name : string)
    (results : list Row) (q : string) (w : World) results' :
  (benchmark_question chain llm_name results q w).1 = Ok results' →
  ∃ evs rows,
    trace (benchmark_question chain llm_name results q w).2 = trace w ++ evs
    ∧ results' = results ++ rows
    ∧ recorded 1 evs rows.
Proof.
  destruct (benchmark_question chain llm_name results q w) as [r w'] eqn:Hrun.
  cbn [fst snd]. intros ->.
  unfold benchmark_question, now, tick, bind, ret in Hrun.
  set (w1 := mkWorld (trace w) (S (ticks w)) (fs w) (heap w)) in Hrun.
  pose proof (Chain_call_reply chain q w1) as Hreply.
  destruct (Chain_call chain q w1) as [[response|e] w2]; [|done].
  destruct (Hreply response eq_refl) as (evs & Htrace & Hrep & Hretr).
  cbn [fst snd] in *. simplify_eq. cbn [trace].
  exists evs. eexists [_]. split; [exact Htrace|]. split; [done|].
  split; [by rewrite Hrep|]. split; [|done]. by repeat constructor.
Qed.

(** A loop whose body records [k] cells per item records [k] cells per
    item of its list. *)
Lemma for_each_recorded {A} (body : list Row → A → M (list Row)) (k : nat) :
  (∀ acc x w acc', (body acc x w).1 = Ok acc' →
     ∃ evs rows, trace (body acc x w).2 = trace w ++ evs
                 ∧ acc' = acc ++ rows ∧ recorded k evs rows) →
  ∀ xs acc w acc', (for_each body xs acc w).1 = Ok acc' →
    ∃ evs rows, trace (for_each body xs acc w).2 = trace w ++ evs
                ∧ acc' = acc ++ rows ∧ recorded (length xs * k) evs rows.
Proof.
  intros Hbody xs. induction xs as [|x xs IH]; intros acc w acc' Hrun.
  - cbn in Hrun. simplify_eq. exists [], []. cbn. rewrite !app_nil_r.
    by repeat split.
  - cbn [for_each] in *. rewrite bind_unfold in *.
    pose proof (Hbody acc x w) as Hx.
    destruct (body acc x w) as [[acc1|e] w1]; [|done]. cbn [fst snd] in *.
    destruct (Hx acc1 eq_refl) as (evs1 & rows1 & Htrace1 & -> & Hr1 & He1 & Hk1).
    destruct (IH _ _ _ Hrun) as (evs2 & rows2 & Htrace2 & -> & Hr2 & He2 & Hk2).
    exists (evs1 ++ evs2), (rows1 ++ rows2).
    rewrite Htrace2, Htrace1, <- !(assoc_L (++)). split; [done|]. split; [done|].
    split; [by rewrite fmap_app, replies_app, Hr1, Hr2|].
    split; [by apply Forall_app|].
    rewrite retrievals_app, length_app, Hk1, Hk2. simpl. lia.
Qed.

Lemma benchmark_llm_recorded (retriever : Retriever) (qs : list string)
    (results : list Row) (llm_name : string) (w : World) results' :
  (benchmark_llm retriever qs results llm_name w).1 = Ok results' →
  ∃ evs rows,
    trace (benchmark_llm retriever qs results llm_name w).2 = trace w ++ evs
    ∧ results' = results ++ rows
    ∧ recorded (length qs) evs rows.
Proof.
  unfold benchmark_llm, build_chain, ConversationBufferMemory, print, emit.
  rewrite !bind_unfold. unfold ret. cbn [trace ticks fs heap].
  set (header := Print _). set (chain := mkChain _ _ _ _). set (w1 := mkWorld _ _ _ _).
  intros Hrun.
  destruct (for_each_recorded (benchmark_question chain llm_name) 1
              (benchmark_question_recorded chain llm_name) qs results w1 results' Hrun)
    as (evs & rows & Htrace & -> & Hr & He & Hk).
  exists (header :: evs), rows. rewrite Htrace. subst w1. cbn [trace].
  rewrite <- (assoc_L (++)). split; [done|]. split; [done|].
  split; [exact Hr|]. split; [done|].
  change (header :: evs) with ([header] ++ evs).
  rewrite retrievals_app, length_app, Hk. simpl. lia.
Qed.

(** X8.  In a sweep that runs to its end, the answer column of the table holds,
    row by row, the replies the model gave to the answering prompts, in the
    order it gave them; every row names the embedding model of the script;
    and the shared retriever was queried exactly once per cell. *)
Theorem sweep_table_records_replies (retriever : Retriever)
    (llms qs : list string) (w : World) :
  (benchmark retriever llms qs w).1 = Ok () →
  ∃ swept rows line,
    trace (benchmark retriever llms qs w).2
    = trace w ++ swept ++ [ToExcel output_file rows; Print line]
    ∧ Modellens_Svar <$> rows = replies swept
    ∧ Forall (λ row, Embeddingmodell row = embedding_model_name) rows
    ∧ length (retrievals swept) = length llms * length qs.
Proof.
  unfold benchmark. rewrite bind_unfold.
  pose proof (for_each_recorded (benchmark_llm retriever qs) (length qs)
                (benchmark_llm_recorded retriever qs) llms [] w) as Hloop.
  destruct (for_each (benchmark_llm retriever qs) llms [] w) as [[rows|e] w1];
    [|done].
  destruct (Hloop rows eq_refl) as (swept & rows' & Htrace & Hrows & Hr & He & Hk).
  cbn [fst snd app] in *. subst rows'. intros _.
  unfold bind, print, emit. cbn [trace fst snd].
  exists swept, rows. eexists. rewrite Htrace, <- !(assoc_L (++)).
  by repeat split.
Qed.

(** X9.  A sweep with no question to ask that runs to its end has printed
    the header of every model and the closing line, has created an empty
    memory for each model, has called neither the retriever nor the model
    and has not read the clock, and has written a table with no rows. *)
Theorem sweep_without_questions (retriever : Retriever) (llms : list string)
    (w : World) :
  (benchmark retriever llms [] w).1 = Ok () →
  (benchmark retriever llms [] w).2
  = mkWorld (trace w
             ++ ((λ llm_name, Print (Py.nl +:+ "== Testing LLM: " +:+ llm_name
                                     +:+ " ==")) <$> llms)
             ++ [ToExcel output_file [];
                 Print (Py.nl +:+ "All tests completed. Results saved to: "
                        +:+ output_file)])
            (ticks w) (fs w) (heap w ++ replicate (length llms) []).
Proof.
  intros _.
  assert (Hloop : ∀ results w,
    for_each (benchmark_llm retriever []) llms results w
    = (Ok results,
       mkWorld (trace w
                ++ ((λ llm_name, Print (Py.nl +:+ "== Testing LLM: " +:+ llm_name
                                        +:+ " ==")) <$> llms))
               (ticks w) (fs w) (heap w ++ replicate (length llms) []))).
  { induction llms as [|llm_name llms IH]; intros results w0.
    - cbn. rewrite !app_nil_r. by destruct w0.
    - cbn [for_each]. rewrite bind_unfold.
      unfold benchmark_llm at 1, build_chain, ConversationBufferMemory, print, emit.
      rewrite !bind_unfold. cbn [for_each ret trace ticks fs heap].
      rewrite IH. cbn [trace ticks fs heap fmap list_fmap length replicate].
      rewrite <- !(assoc_L (++)). reflexivity. }
  unfold benchmark. rewrite bind_unfold, Hloop.
  unfold bind, print, emit. cbn [trace ticks fs heap snd].
  by rewrite <- !(assoc_L (++)).
Qed.

End Table.

(** ** [run_mpnet_tests.py]: preparing the documents and the whole script *)

Section MpnetFacts.
Context `{Externals}.
Variable os_listdir : string → result (list string).

Lemma load_listed_outcome (folder : string) (docs : list Document)
    (file : string) (w : World) :
  Mpnet.load_listed folder docs file w
  = (match listed_load folder file with
     | Some r => result_map (λ l, docs ++ l) r
     | None => Ok docs
     end, w).
Proof.
  unfold Mpnet.load_listed, listed_load.
  destruct (Py.str_endswith file ".pdf").
  { unfold bind, lift, ret. by destruct (PyPDFLoader_load _). }
  destruct (Py.str_endswith file ".docx"); [|done].
  unfold bind, lift, ret. by destruct (UnstructuredWordDocumentLoader_load _).
Qed.

Lemma listed_loop (folder : string) (files : list string) :
  ∀ (docs : list Document) (w : World),
    let run := for_each (Mpnet.load_listed folder) files docs w in
    let selected file := from_option is_Ok True (listed_load folder file) in
    run.2 = w
    ∧ (Forall selected files →
       run.1 = Ok (docs ++ flat_map (λ file, from_option loaded []
                                               (listed_load folder file)) files))
    ∧ (is_Ok run.1 → Forall selected files).
Proof.
  induction files as [|file files IH]; intros docs w run selected; subst run.
  - cbn. rewrite app_nil_r. by repeat split.
  - cbn [for_each flat_map]. rewrite bind_unfold, load_listed_outcome.
    subst selected. cbv beta.
    destruct (listed_load folder file) as [[l|e]|] eqn:Hfile;
      cbn [result_map from_option loaded].
    + destruct (IH (docs ++ l) w) as (Hw & Hok & Hinv).
      split; [done|]. split.
      * intros Hall. inversion Hall; subst. rewrite Hok by done.
        by rewrite (assoc_L (++)).
      * intros Hret. constructor; [by rewrite Hfile|by apply Hinv].
    + split; [done|]. split; [|done].
      intros Hall. inversion Hall as [|? ? Hhead]; subst.
      by rewrite Hfile in Hhead.
    + destruct (IH docs w) as (Hw & Hok & Hinv).
      split; [done|]. split.
      * intros Hall. inversion Hall; subst. by rewrite Hok.
      * intros Hret. constructor; [by rewrite Hfile|by apply Hinv].
Qed.

Lemma mpnet_prepare_unfold (folder : string) (w : World) :
  Mpnet.prepare_documents os_listdir folder w
  = match os_listdir folder with
    | Raise e => (Raise e, w)
    | Ok files =>
        match for_each (Mpnet.load_listed folder) files [] w with
        | (Ok docs, w1) =>
            match DirectoryLoader_load folder "**/*.txt" with
            | Ok l => (split_documents 500 100 (docs ++ l), w1)
            | Raise e => (Raise e, w1)
            end
        | (Raise e, w1) => (Raise e, w1)
        end
    end.
Proof.
  unfold Mpnet.prepare_documents, bind, lift.
  destruct (os_listdir folder); [|done].
  destruct (for_each _ _ _ _) as [[docs|e] w1]; [|done].
  by destruct (DirectoryLoader_load _ _).
Qed.

(** X10.  [prepare_documents] of the benchmark script walks the directory listing
    in order: a name ending in .pdf is loaded as PDF, otherwise one ending
    in .docx as Word, and any other name is passed over; the text files come
    last, from the directory loader.  It returns the split of all these
    documents when the listing and every selected loader succeed, and no
    chunk at all otherwise; it leaves the world as it is. *)
Theorem listing_ingestion (folder : string) (w : World) :
  let txt := DirectoryLoader_load folder "**/*.txt" in
  let run := Mpnet.prepare_documents os_listdir folder w in
  run.2 = w
  ∧ match os_listdir folder with
    | Raise e => run.1 = Raise e
    | Ok files =>
        let all_loaded :=
          Forall (λ file, from_option is_Ok True (listed_load folder file)) files
          ∧ is_Ok txt in
        (all_loaded →
         run.1 = split_documents 500 100
                   (flat_map (λ file, from_option loaded []
                                        (listed_load folder file)) files
                    ++ loaded txt))
        ∧ (¬ all_loaded → ¬ is_Ok run.1)
    end.
Proof.
  intros txt run. subst run. rewrite mpnet_prepare_unfold.
  destruct (os_listdir folder) as [files|e]; [|done].
  destruct (listed_loop folder files [] w) as (Hw & Hok & Hinv).
  destruct (for_each (Mpnet.load_listed folder) files [] w) as [[docs|e] w1];
    cbn [fst snd] in *; subst w1.
  2:{ split; [done|]. split; [|by intros _ []]. intros [Hall _].
      by specialize (Hok Hall). }
  fold txt.
  destruct txt as [ltxt|etxt]; cbn [fst snd loaded].
  2:{ split; [done|]. split; [|by intros _ []]. by intros [_ ?]. }
  split; [done|]. split.
  - intros [Hall _]. specialize (Hok Hall). by simplify_eq.
  - intros Hnot Hret. apply Hnot. split; [by apply Hinv|done].
Qed.

Lemma mpnet_prepare_world (folder : string) (w : World) :
  (Mpnet.prepare_documents os_listdir folder w).2 = w.
Proof.
  rewrite mpnet_prepare_unfold.
  destruct (os_listdir folder) as [files|e]; [|done].
  destruct (listed_loop folder files [] w) as (Hw & _ & _).
  destruct (for_each (Mpnet.load_listed folder) files [] w) as [[docs|e] w1];
    cbn [fst snd] in *; subst w1; [|done].
  by destruct (DirectoryLoader_load _ _).
Qed.

(** X11.  Whichever way the script gets its store, reopening it or building it
    first, a run that reaches its end has written exactly one table, of 8
    rows: the four models of the script in order, each with the two
    questions in order.  A run that raises, at start-up or in the sweep, has
    written none. *)
Theorem script_writes_one_table_or_none (w : World) :
  let run := Mpnet.run_mpnet_tests os_listdir w in
  ∃ evs,
    trace run.2 = trace w ++ evs
    ∧ match run.1 with
      | Ok _ =>
          ∃ rows,
            writes evs = [(output_file, rows)]
            ∧ length rows = 8
            ∧ (λ row, (LLM row, Fraga row)) <$> rows
              = (llms_to_test ≫= λ llm_name, (λ q, (llm_name, q)) <$> questions)
      | Raise _ => writes evs = []
      end.
Proof.
  intros run. subst run.
  destruct (Mpnet.run_mpnet_tests os_listdir w) as [r wf] eqn:Hrun. cbn [fst snd].
  unfold Mpnet.run_mpnet_tests in Hrun.
  rewrite bind_unfold in Hrun. unfold path_exists at 1 in Hrun.
  cbv beta iota in Hrun.
  set (present := bool_decide _) in Hrun. rewrite bind_unfold in Hrun.
  set (startup := if negb present then _ else _) in Hrun.
  assert (Hstart : ∃ evs0, trace (startup w).2 = trace w ++ evs0 ∧ writes evs0 = []).
  { subst startup. destruct present; cbn [negb].
    - by exists [Print "Using existing ChromaDB."].
    - rewrite bind_unfold. unfold print at 1, emit at 1. cbv beta iota.
      rewrite bind_unfold.
      set (w0 := mkWorld _ _ _ _).
      pose proof (mpnet_prepare_world Mpnet.docs_path w0) as Hw.
      destruct (Mpnet.prepare_documents os_listdir Mpnet.docs_path w0)
        as [[chunks|e] w1]; cbn [fst snd] in *; subst w1.
      2:{ by exists [Print "Creating vectorstore for embedding model..."]. }
      unfold bind, Chroma_from_documents_call, ret.
      destruct (Chroma_from_documents _ _ _ _ _) as [[vs|e] fs'];
        cbn [trace fst snd]; subst w0; cbn [trace];
        exists [Print "Creating vectorstore for embedding model...";
                ChromaFromDocuments chunks "rag_chat" embedding_model_name
                                    Mpnet.db_path];
        (split; [by rewrite <- (assoc_L (++))|done]). }
  destruct Hstart as (evs0 & Htrace0 & Hw0).
  destruct (startup w) as [[[]|e] w1]; cbn [fst snd] in *.
  2:{ simplify_eq. by exists evs0. }
  rewrite bind_unfold in Hrun. unfold Chroma_call at 1 in Hrun.
  destruct (Chroma _ _ _ _) as [[vs|e] fs'].
  2:{ simplify_eq. cbn [trace].
      exists (evs0 ++ [ChromaOpen "rag_chat" embedding_model_name Mpnet.db_path]).
      rewrite Htrace0, <- (assoc_L (++)). split; [done|].
      by rewrite writes_app, Hw0. }
  set (w2 := mkWorld _ _ _ _) in Hrun.
  destruct (benchmark_summary (as_retriever vs) llms_to_test questions w2)
    as (evs & Htrace & Hr).
  rewrite Hrun in Htrace, Hr. cbn [fst snd] in *.
  exists (evs0 ++ [ChromaOpen "rag_chat" embedding_model_name Mpnet.db_path] ++ evs).
  split.
  { rewrite Htrace. subst w2. cbn [trace]. by rewrite Htrace0, <- !(assoc_L (++)). }
  rewrite !writes_app, Hw0. cbn [app].
  destruct r as [[]|e].
  - destruct Hr as (swept & cells & -> & _ & Hw & _ & Hblocks & _).
    exists (concat cells.*1).
    split; [by rewrite (writes_swept swept _ _ Hw)|].
    pose proof (blocks_listing questions llms_to_test cells Hblocks) as Hlisting.
    split; [|done].
    by rewrite <- (length_fmap (λ row, (LLM row, Fraga row))), Hlisting.
  - destruct Hr as (? & ? & ? & ? & ? & _ & _ & _ & _ & Hnone).
    by rewrite Hnone.
Qed.

End MpnetFacts.

(** * Further runs on the sample corpus *)

Section MoreRuns.

Example padded_source_is_trimmed :
  source_formatting [padded_chunk] = "[doc1]=docs/c.pdf"
  ∧ formatted_sources [padded_chunk] = "[source1] docs/c.pdf ".
Proof. split; reflexivity. Qed.

Example listing_of_sample :
  (@Mpnet.prepare_documents healthy sample_listing "docs" empty_world).1
  = Ok [sample_chunk "docs/a.pdf" "text of docs/a.pdf";
        sample_chunk "docs/b.docx" "a word file"].
Proof. vm_compute. reflexivity. Qed.

Example script_on_sample :
  length (writes (trace (@Mpnet.run_mpnet_tests healthy sample_listing
                           empty_world).2)) = 1
  ∧ fs (@Mpnet.run_mpnet_tests healthy sample_listing empty_world).2
    = {[ "../chroma_db" := Directory ]}.
Proof. split; vm_compute; reflexivity. Qed.

(** A conversation of two turns: history and memory hold the same turns. *)
Lemma history_and_memory_in_step_run :
  ∃ replies,
    length replies = 2
    ∧ entries_of [("q1", "answer 0"); ("q2", "answer 2")]
      = entries_of ([] ++ zip ["q1"; "q2"] replies)
    ∧ (heap session_world !! @chain_memory healthy sample_qa
       = Some (messages_of []) →
       heap (@conversation healthy sample_qa ["q1"; "q2"] (entries_of [])
               session_world).2 !! @chain_memory healthy sample_qa
       = Some (messages_of ([] ++ zip ["q1"; "q2"] replies))).
Proof.
  apply (@history_and_memory_in_step healthy sample_qa ["q1"; "q2"] []
           session_world [sample_references; sample_references]).
  vm_compute. reflexivity.
Defined.

(** A chunk whose source ends in a blank, followed by one whose source ends
    in a letter: the blank stays, only the final blank line goes. *)
Lemma source_formatting_joined_run :
  source_formatting ([padded_chunk] ++ [sample_chunk "docs/b.pdf" "beta"])
  = Py.join (Py.nl +:+ Py.nl)
      (imap (λ i chunk, "[doc" +:+ Py.str (i + 1) +:+ "]="
                          +:+ metadata_source chunk)
            ([padded_chunk] ++ [sample_chunk "docs/b.pdf" "beta"])).
Proof.
  apply (source_formatting_joined [padded_chunk]
           (sample_chunk "docs/b.pdf" "beta")).
  reflexivity.
Defined.

(** The sample sweep with no question. *)
Lemma sweep_without_questions_run :
  (@benchmark healthy (@mkRetriever healthy sample_chunks 4)
     ["m1"; "m2"] [] empty_world).2
  = mkWorld ([] ++ [Print (Py.nl +:+ "== Testing LLM: m1 ==");
                    Print (Py.nl +:+ "== Testing LLM: m2 ==")]
             ++ [ToExcel output_file [];
                 Print (Py.nl +:+ "All tests completed. Results saved to: "
                        +:+ output_file)])
            0 ∅ ([] ++ [[]; []]).
Proof.
  apply (@sweep_without_questions healthy
           (@mkRetriever healthy sample_chunks 4) ["m1"; "m2"] empty_world).
  vm_compute. reflexivity.
Defined.

(** The table of the sample sweep holds the four replies of the model. *)
Lemma sweep_table_records_replies_run :
  ∃ swept rows line,
    trace (@benchmark healthy (@mkRetriever healthy sample_chunks 4)
             ["m1"; "m2"] ["q1"; "q2"] empty_world).2
    = trace empty_world ++ swept ++ [ToExcel output_file rows; Print line]
    ∧ Modellens_Svar <$> rows = replies swept
    ∧ Forall (λ row, Embeddingmodell row = embedding_model_name) rows
    ∧ length (retrievals swept) = 2 * 2.
Proof.
  apply (@sweep_table_records_replies healthy
           (@mkRetriever healthy sample_chunks 4) ["m1"; "m2"] ["q1"; "q2"]
           empty_world).
  vm_compute. reflexivity.
Defined.

End MoreRuns.
